(** * gossip_check.py: sampling, geolocating and classifying gossip peers

    A shallow embedding of [gossip_check.py] and the properties of its
    pipeline: fetch, sample, geolocate, classify, persist.

    The script talks to two HTTP services, reads the wall clock, draws
    random numbers, prints to the terminal and writes two files.  All of
    that is gathered in one [world] that the program threads through a
    state-and-exception monad [IO]; exceptions are values, so that the two
    [try]/[except] blocks of the script can be written as they are.

    What the embedding takes from the libraries the script calls:
    - the JSON bodies have the shape the script expects (a list of peer
      objects under ['result'], a list of reply objects), with keys that
      may be missing and values that are strings;
    - [random.sample] is CPython's selection loop, over a random source
      that is arbitrary;
    - the [csv] writer is taken at the level of records, the log being
      the list of the records written to it;
    - numbers are [Z] and binary64 floats, and [:.2f] rounds the exact
      value of the float. *)

From Stdlib Require Import Ascii Floats.
From stdpp Require Import base option list sorting strings gmap pretty.

(** ** Data model *)

(** A peer object of the directory response.  A key that is absent from
    the JSON object, or whose value is [null], reads as [None] through
    [dict.get]; the values that are present are strings. *)
Record node := Node {
  gossip : option string;
  pubkey : option string;
  version : option string
}.

(** One entry of the geolocation reply.  [query] is read with
    [item['query']], which raises [KeyError] when the key is absent; the
    other two are read with [item.get(key, 'Unknown')]. *)
Record geo_item := GeoItem {
  query : option string;
  countryCode : option string;
  country : option string
}.

(** The value stored per host in the resolver's result: the dictionary
    [{'code': ..., 'name': ...}]. *)
Record location := Location {
  code : string;
  name : string
}.

(** A row of [processed_data]; the fields are the keys of the dictionary
    built in the source, in the order they are written there. *)
Record scan_row := ScanRow {
  timestamp : string;
  row_pubkey : option string;
  gossip_ip : string;
  row_version : option string;
  country_code : string;
  country_name : string;
  is_ofac_sanctioned : bool
}.

(** [datetime.now()]: the two renderings the script asks for. *)
Record datetime := DateTime {
  isoformat : string;
  strftime_ymd_hms : string
}.

(** Python exceptions: the class name and [str(e)]. *)
Record exn := Exn {
  exn_class : string;
  exn_msg : string
}.

(** The outcome of a call that may raise. *)
Inductive result (A : Type) : Type :=
| Ok (a : A)
| Raise (e : exn).
Arguments Ok {A} a.
Arguments Raise {A} e.

(** A [requests.Response]: what [raise_for_status()] raises, if it does,
    and what [json()] returns or raises. *)
Record response (D : Type) := Response {
  status_error : option exn;
  json : result D
}.
Arguments Response {D} _ _.
Arguments status_error {D} _.
Arguments json {D} _.

(** The decoded body of the RPC reply: a JSON object with or without the
    key ['result']. *)
Record rpc_body := RpcBody {
  rpc_result : option (list node)
}.

(** The requests the script sends, as recorded in the world. *)
Inductive request :=
| RpcRequest
| GeoRequest (payload : list string).

(** A record of the CSV log: the fields of one line. *)
Definition csv_record := list string.

(** ** The world and the monad *)

Record world := World {
  (** the reply the RPC endpoint would give to the [n]-th request sent *)
  rpc_endpoint : nat -> result (response rpc_body);
  (** the reply the geolocation endpoint would give to the [n]-th request *)
  geo_endpoint : nat -> list string -> result (response (list geo_item));
  (** the requests sent so far, oldest first *)
  http_log : list request;
  (** the [n]-th value the random generator yields below a bound *)
  randbelow_src : nat -> nat -> nat;
  rand_calls : nat;
  (** what the [n]-th reading of the clock shows *)
  wall_clock : nat -> datetime;
  clock_reads : nat;
  (** [daily_node_scan.csv]: [None] when the file does not exist *)
  csv_file : option (list csv_record);
  (** [daily_summary.txt] *)
  summary_file : option string;
  (** lines printed so far, oldest first *)
  stdout : list string
}.

#[global] Instance result_ret : MRet result := fun A a => Ok a.

#[global] Instance result_bind : MBind result := fun A B f r =>
  match r with
  | Ok a => f a
  | Raise e => Raise e
  end.

Definition IO (A : Type) : Type := world -> result A * world.

#[global] Instance IO_ret : MRet IO := fun A a w => (Ok a, w).

#[global] Instance IO_bind : MBind IO := fun A B f m w =>
  match m w with
  | (Ok a, w') => f a w'
  | (Raise e, w') => (Raise e, w')
  end.

Definition raise {A} (e : exn) : IO A := fun w => (Raise e, w).

(** [try: body  except Exception as e: handler e]. *)
Definition try_except {A} (body : IO A) (handler : exn -> IO A) : IO A :=
  fun w =>
    match body w with
    | (Ok a, w') => (Ok a, w')
    | (Raise e, w') => handler e w'
    end.

(** A [try] block that updates an object in place, here a dictionary
    that starts as [s0]: the block yields the object as it leaves it and
    how it ended, so that the updates made before an exception are kept.
    Whether the block raises before or after it touches the object, the
    [except] clause runs, and the object is what the statement leaves. *)
Definition try_except_inplace {S} (s0 : S) (body : IO (S * result unit))
    (handler : exn -> IO unit) : IO S :=
  fun w =>
    match body w with
    | (Ok (s, Ok _), w') => (Ok s, w')
    | (Ok (s, Raise e), w') =>
        match handler e w' with
        | (Ok _, w'') => (Ok s, w'')
        | (Raise e', w'') => (Raise e', w'')
        end
    | (Raise e, w') =>
        match handler e w' with
        | (Ok _, w'') => (Ok s0, w'')
        | (Raise e', w'') => (Raise e', w'')
        end
    end.

Definition lift_result {A} (r : result A) : IO A := fun w => (r, w).

(** ** Primitives of the environment *)

Definition with_http_log (w : world) (l : list request) : world :=
  World (rpc_endpoint w) (geo_endpoint w) l (randbelow_src w) (rand_calls w)
        (wall_clock w) (clock_reads w) (csv_file w) (summary_file w) (stdout w).

Definition with_rand_calls (w : world) (n : nat) : world :=
  World (rpc_endpoint w) (geo_endpoint w) (http_log w) (randbelow_src w) n
        (wall_clock w) (clock_reads w) (csv_file w) (summary_file w) (stdout w).

Definition with_clock_reads (w : world) (n : nat) : world :=
  World (rpc_endpoint w) (geo_endpoint w) (http_log w) (randbelow_src w)
        (rand_calls w) (wall_clock w) n (csv_file w) (summary_file w) (stdout w).

Definition with_csv_file (w : world) (f : option (list csv_record)) : world :=
  World (rpc_endpoint w) (geo_endpoint w) (http_log w) (randbelow_src w)
        (rand_calls w) (wall_clock w) (clock_reads w) f (summary_file w) (stdout w).

Definition with_summary_file (w : world) (f : option string) : world :=
  World (rpc_endpoint w) (geo_endpoint w) (http_log w) (randbelow_src w)
        (rand_calls w) (wall_clock w) (clock_reads w) (csv_file w) f (stdout w).

Definition with_stdout (w : world) (l : list string) : world :=
  World (rpc_endpoint w) (geo_endpoint w) (http_log w) (randbelow_src w)
        (rand_calls w) (wall_clock w) (clock_reads w) (csv_file w)
        (summary_file w) l.

Definition print (s : string) : IO unit :=
  fun w => (Ok tt, with_stdout w (stdout w ++ [s])).

(** [requests.post(RPC_URL, ...)]: one request goes out, and the call
    returns the response or raises (connection error, timeout). *)
Definition requests_post_rpc : IO (response rpc_body) :=
  fun w => (rpc_endpoint w (length (http_log w)),
            with_http_log w (http_log w ++ [RpcRequest])).

(** [requests.post(GEO_API_BATCH_URL, json=payload, ...)]; the payload is
    given by the hosts it queries. *)
Definition requests_post_geo (hosts : list string) : IO (response (list geo_item)) :=
  fun w => (geo_endpoint w (length (http_log w)) hosts,
            with_http_log w (http_log w ++ [GeoRequest hosts])).

Definition raise_for_status {D} (r : response D) : IO unit :=
  match status_error r with
  | Some e => raise e
  | None => mret tt
  end.

Definition response_json {D} (r : response D) : IO D := lift_result (json r).

Definition datetime_now : IO datetime :=
  fun w => (Ok (wall_clock w (clock_reads w)),
            with_clock_reads w (S (clock_reads w))).

(** [random.Random._randbelow(bound)]: whatever the generator yields,
    brought into the range [0 <= j < bound] that the call guarantees. *)
Definition randbelow (bound : nat) : IO nat :=
  fun w => (Ok (randbelow_src w (rand_calls w) bound mod bound)%nat,
            with_rand_calls w (S (rand_calls w))).

(** [l[i]] on a list. *)
Definition index {A} (l : list A) (i : nat) : IO A :=
  match l !! i with
  | Some x => mret x
  | None => raise (Exn "IndexError" "list index out of range")
  end.

(** The selection loop of CPython's [random.sample] over a copy of the
    population:
<<
    for i in range(k):
        j = randbelow(n - i)
        result[i] = pool[j]
        pool[j] = pool[n - i - 1]
>>
    [k] counts the iterations that remain.  (For populations much
    larger than the sample the library instead remembers the indices it
    has drawn and draws again on a repeat; either way it returns [k]
    elements from [k] distinct places of the population.) *)
Fixpoint sample_loop {A} (n : nat) (pool : list A) (i k : nat) : IO (list A) :=
  match k with
  | O => mret []
  | S k' =>
      j ← randbelow (n - i);
      x ← index pool j;
      y ← index pool (n - i - 1);
      rest ← sample_loop n (<[j := y]> pool) (S i) k';
      mret (x :: rest)
  end.

(** [random.sample(population, k)], which refuses a sample larger than
    the population. *)
Definition random_sample {A} (population : list A) (k : nat) : IO (list A) :=
  let n := length population in
  if (n <? k)%nat
  then raise (Exn "ValueError" "Sample larger than population or is negative")
  else sample_loop n population 0 k.

(** The log file: [os.path.isfile], [open(..., 'a')] and the rows the
    [csv] writer adds at the end. *)
Definition os_path_isfile_csv : IO bool :=
  fun w => (Ok (bool_decide (is_Some (csv_file w))), w).

Definition open_append_csv : IO unit :=
  fun w => (Ok tt, with_csv_file w (Some (default [] (csv_file w)))).

Definition csv_write (records : list csv_record) : IO unit :=
  fun w => (Ok tt, with_csv_file w (Some (default [] (csv_file w) ++ records))).

(** [open("daily_summary.txt", "w")] followed by [f.write(text)]. *)
Definition write_summary_file (text : string) : IO unit :=
  fun w => (Ok tt, with_summary_file w (Some text)).

(** ** Python values used by the script *)

(** Truthiness of [n.get('gossip')]: [None] and the empty string are
    falsy. *)
Definition truthy (s : option string) : bool :=
  match s with
  | Some (String _ _) => true
  | _ => false
  end.

(** [s.split(':')[0]]: the part of [s] before its first colon, all of [s]
    when it has none. *)
Fixpoint split_colon_0 (s : string) : string :=
  match s with
  | EmptyString => EmptyString
  | String c r => if decide (c = ":"%char) then EmptyString else String c (split_colon_0 r)
  end.

(** [range(start, stop, step)] for [start <= stop] and a positive step. *)
Definition range3 (start stop step : nat) : list nat :=
  (λ q, start + q * step) <$> seq 0 ((stop - start + step - 1) / step).

(** The slice [l[i:j]]. *)
Definition slice {A} (l : list A) (i j : nat) : list A := take (j - i) (drop i l).

(** A [dict] whose iteration order matters: the items in the order their
    keys were first inserted.  Assigning to a key that is present replaces
    the value where the key already stands. *)
Definition odict (V : Type) : Type := list (string * V).

Fixpoint od_get {V} (d : odict V) (k : string) : option V :=
  match d with
  | [] => None
  | (k', v) :: d' => if decide (k' = k) then Some v else od_get d' k
  end.

Fixpoint od_set {V} (k : string) (v : V) (d : odict V) : odict V :=
  match d with
  | [] => [(k, v)]
  | (k', v') :: d' =>
      if decide (k' = k) then (k', v) :: d' else (k', v') :: od_set k v d'
  end.

(** [collections.Counter]: a missing key counts as [0]. *)
Definition counter_get (c : odict Z) (k : string) : Z := default 0%Z (od_get c k).

(** [c[k] += 1]. *)
Definition counter_incr (k : string) (c : odict Z) : odict Z :=
  od_set k (counter_get c k + 1)%Z c.

(** Insertion of an item into a list that is sorted by descending count,
    in front of the items that count as much or less. *)
Fixpoint insert_by_count (x : string * Z) (l : list (string * Z)) : list (string * Z) :=
  match l with
  | [] => [x]
  | y :: l' =>
      if bool_decide (y.2 ≤ x.2)%Z then x :: y :: l' else y :: insert_by_count x l'
  end.

(** [sorted(items, key=itemgetter(1), reverse=True)], a stable sort:
    items that count the same keep the order they come in.  The items are
    inserted from the last to the first, each in front of its equals. *)
Definition sorted_by_count_desc (items : list (string * Z)) : list (string * Z) :=
  foldr insert_by_count [] items.

(** [Counter.most_common()]. *)
Definition most_common (c : odict Z) : list (string * Z) := sorted_by_count_desc c.

(** A number as Python has it here: an [int] or a [float]. *)
Inductive number :=
| PyInt (z : Z)
| PyFloat (f : float).

(** [float(z)] for the integers that a double holds exactly (below
    [2^53] in absolute value), which the counts of a run are. *)
Definition float_of_int (z : Z) : float :=
  match z with
  | Z0 => PrimFloat.zero
  | Zpos _ => PrimFloat.of_uint63 (Uint63.of_Z z)
  | Zneg p => PrimFloat.opp (PrimFloat.of_uint63 (Uint63.of_Z (Zpos p)))
  end.

(** [a / b] on integers: true division. *)
Definition truediv (a b : Z) : result float :=
  if decide (b = 0%Z)
  then Raise (Exn "ZeroDivisionError" "division by zero")
  else Ok (PrimFloat.div (float_of_int a) (float_of_int b)).

(** Rounding of [num / den] to the nearest integer, ties to even, for a
    positive [den]. *)
Definition round_half_even (num den : Z) : Z :=
  let q := (num `div` den)%Z in
  let r := (num `mod` den)%Z in
  if bool_decide (2 * r < den)%Z then q
  else if bool_decide (den < 2 * r)%Z then (q + 1)%Z
  else if Z.even q then q else (q + 1)%Z.

Definition two_digits (n : Z) : string :=
  if bool_decide (n < 10)%Z then "0" +:+ pretty n else pretty n.

Definition format_cents (negative : bool) (cents : Z) : string :=
  (if negative then "-" else "") +:+ pretty (cents `div` 100)%Z +:+ "."
    +:+ two_digits (cents `mod` 100)%Z.

(** [f"{x:.2f}"]: the decimal expansion of the exact value of the double,
    rounded to two places, ties to even. *)
Definition format_2f_float (f : float) : string :=
  match Prim2SF f with
  | S754_zero s => format_cents s 0
  | S754_infinity s => if s then "-inf" else "inf"
  | S754_nan => "nan"
  | S754_finite s m e =>
      format_cents s
        (if bool_decide (0 ≤ e)%Z
         then (Zpos m * 100 * 2 ^ e)%Z
         else round_half_even (Zpos m * 100) (2 ^ (- e)))
  end.

Definition format_2f (x : number) : string :=
  match x with
  | PyInt z => pretty z +:+ ".00"
  | PyFloat f => format_2f_float f
  end.

(** ["\n".join(lines)]. *)
Fixpoint join_lines (lines : list string) : string :=
  match lines with
  | [] => ""
  | [l] => l
  | l :: rest => l +:+ String "010"%char (join_lines rest)
  end.

(** ** The script *)

Definition SAMPLE_SIZE : nat := 150.

Definition OFAC_COUNTRIES : gset string :=
  {[ "IR"; "KP"; "CU"; "SY"; "RU"; "BY"; "VE"; "MM" ]}.

(** [get_gossip_nodes()].  The [try] block yields [Some r] where the
    source returns [r] from inside it, and [None] where control falls
    through to the final [return []]. *)
Definition get_gossip_nodes : IO (list node) :=
  returned ← try_except
    (response ← requests_post_rpc;
     _ ← raise_for_status response;
     data ← response_json response;
     match rpc_result data with
     | Some r => mret (Some r)
     | None => mret None
     end)
    (λ e,
     _ ← print ("Error fetching cluster nodes: " +:+ exn_msg e);
     mret (Some []));
  match returned with
  | Some r => mret r
  | None => mret []
  end.

(** The inner loop of [get_ip_country_batch]:
<<
    for item in data:
        results[item['query']] = {'code': ..., 'name': ...}
>>
    [results] is updated in place, so what was stored before an item
    without ['query'] raises stays stored: the function returns the
    dictionary as the loop leaves it, and how the loop ended. *)
Fixpoint store_items (data : list geo_item) (results : gmap string location)
    : gmap string location * result unit :=
  match data with
  | [] => (results, Ok tt)
  | item :: rest =>
      match query item with
      | None => (results, Raise (Exn "KeyError" "'query'"))
      | Some q =>
          store_items rest
            (<[q := Location (default "Unknown" (countryCode item))
                             (default "Unknown" (country item))]> results)
      end
  end.

(** One iteration of the loop over the chunks: the [try] block and its
    [except] clause. *)
Definition geolocate_chunk (ips : list string) (results : gmap string location)
    (i : nat) : IO (gmap string location) :=
  let chunk_size := 100 in
  let chunk := slice ips i (i + chunk_size) in
  try_except_inplace results
    (response ← requests_post_geo chunk;
     data ← response_json response;
     mret (store_items data results))
    (λ e, print ("Error geolocating chunk " +:+ pretty i +:+ ": " +:+ exn_msg e)).

Fixpoint for_chunks (ips : list string) (starts : list nat)
    (results : gmap string location) : IO (gmap string location) :=
  match starts with
  | [] => mret results
  | i :: starts' =>
      results' ← geolocate_chunk ips results i;
      for_chunks ips starts' results'
  end.

(** [get_ip_country_batch(ips)]. *)
Definition get_ip_country_batch (ips : list string) : IO (gmap string location) :=
  let chunk_size := 100 in
  for_chunks ips (range3 0 (length ips) chunk_size) ∅.

(** The loop that extracts the hosts:
<<
    for node in sampled_nodes:
        gossip_addr = node.get('gossip')
        if gossip_addr:
            ip = gossip_addr.split(':')[0]
            ip_list.append(ip)
            node_map[ip] = node
>>
*)
Fixpoint extract_ips (sampled_nodes : list node) (ip_list : list string)
    (node_map : odict node) : list string * odict node :=
  match sampled_nodes with
  | [] => (ip_list, node_map)
  | nd :: rest =>
      let gossip_addr := gossip nd in
      if truthy gossip_addr then
        let ip := split_colon_0 (default "" gossip_addr) in
        extract_ips rest (ip_list ++ [ip]) (od_set ip nd node_map)
      else extract_ips rest ip_list node_map
  end.

(** The loop over [node_map.items()], on the three variables it updates:
    [processed_data], [country_counter] and [sanctioned_count]. *)
Fixpoint process_items (items : list (string * node)) (geo_data : gmap string location)
    (processed_data : list scan_row) (country_counter : odict Z)
    (sanctioned_count : Z) : IO (list scan_row * odict Z * Z) :=
  match items with
  | [] => mret (processed_data, country_counter, sanctioned_count)
  | (ip, nd) :: rest =>
      let location := default (Location "XX" "Unknown") (geo_data !! ip) in
      let country_code := code location in
      let country_name := name location in
      let is_sanctioned := bool_decide (country_code ∈ OFAC_COUNTRIES) in
      let sanctioned_count :=
        if is_sanctioned then (sanctioned_count + 1)%Z else sanctioned_count in
      let country_counter := counter_incr country_code country_counter in
      now ← datetime_now;
      process_items rest geo_data
        (processed_data ++
           [ScanRow (isoformat now) (pubkey nd) ip (version nd)
                    country_code country_name is_sanctioned])
        country_counter sanctioned_count
  end.

Definition fieldnames : csv_record :=
  ["timestamp"; "pubkey"; "gossip_ip"; "version"; "country_code";
   "country_name"; "is_ofac_sanctioned"].

(** What the [csv] writer puts in a field: [None] as the empty string,
    a boolean as [True] or [False]. *)
Definition csv_opt (v : option string) : string := default "" v.
Definition csv_bool (b : bool) : string := if b then "True" else "False".

(** [DictWriter.writerow]: the values of the row under [fieldnames], in
    that order. *)
Definition row_to_record (r : scan_row) : csv_record :=
  [timestamp r; csv_opt (row_pubkey r); gossip_ip r; csv_opt (row_version r);
   country_code r; country_name r; csv_bool (is_ofac_sanctioned r)].

(** Part 1 of the outputs: the CSV log. *)
Definition write_csv (processed_data : list scan_row) : IO unit :=
  file_exists ← os_path_isfile_csv;
  _ ← open_append_csv;
  _ ← (if negb file_exists then csv_write [fieldnames] else mret tt);
  _ ← csv_write (row_to_record <$> processed_data);
  print "Results appended to daily_node_scan.csv".

(** [(sanctioned_count / total_fetched * 100) if total_fetched > 0 else 0] *)
Definition compute_non_compliance_pct (sanctioned_count total_fetched : Z)
    : result number :=
  if bool_decide (0 < total_fetched)%Z then
    q ← truediv sanctioned_count total_fetched;
    mret (PyFloat (PrimFloat.mul q (float_of_int 100)))
  else mret (PyInt 0).

Definition sum_values (c : odict Z) : Z := foldr Z.add 0%Z (c.*2).

Definition build_summary_lines (now : datetime) (total_fetched sanctioned_count : Z)
    (non_compliance_pct : number) (country_counter : odict Z) : list string :=
  [ "--- Solana Gossip Node Scan Summary ---";
    "Date: " +:+ strftime_ymd_hms now;
    "Total Nodes Sampled: " +:+ pretty total_fetched;
    "---------------------------------------";
    "Sanctioned Nodes (OFAC): " +:+ pretty sanctioned_count;
    "Non-Compliance Percentage: " +:+ format_2f non_compliance_pct +:+ "%";
    "---------------------------------------";
    "Top Countries:";
    "  🇺🇸 US (USA): " +:+ pretty (counter_get country_counter "US");
    "  🇩🇪 DE (Germany): " +:+ pretty (counter_get country_counter "DE");
    "  🇷🇺 RU (Russia): " +:+ pretty (counter_get country_counter "RU");
    "  🇮🇷 IR (Iran): " +:+ pretty (counter_get country_counter "IR");
    "  🇰🇵 KP (North Korea): " +:+ pretty (counter_get country_counter "KP");
    "  Other: " +:+ pretty (total_fetched - sum_values country_counter)%Z;
    "---------------------------------------";
    "Full Country Breakdown:" ]
  ++ ((λ item : string * Z, "  " +:+ item.1 +:+ ": " +:+ pretty item.2)
        <$> most_common country_counter).

(** The local variables of [main] as they stand when it returns. *)
Record main_locals := MainLocals {
  nodes : list node;
  valid_nodes : list node;
  sampled_nodes : list node;
  ip_list : list string;
  node_map : odict node;
  geo_data : gmap string location;
  processed_data : list scan_row;
  country_counter : odict Z;
  sanctioned_count : Z;
  total_fetched : Z;
  non_compliance_pct : number;
  summary_lines : list string
}.

(** [main()].  The source returns nothing; the embedding returns the
    local variables, for the theorems to speak of them. *)
Definition main : IO main_locals :=
  _ ← print "Fetching nodes from Solana Gossip Network...";
  nodes ← get_gossip_nodes;
  let valid_nodes := filter (λ n, truthy (gossip n)) nodes in
  _ ← print ("Total active nodes found: " +:+ pretty (length valid_nodes));
  sampled_nodes ←
    (if bool_decide (SAMPLE_SIZE < length valid_nodes)
     then random_sample valid_nodes SAMPLE_SIZE
     else mret valid_nodes);
  _ ← print ("Sampling " +:+ pretty (length sampled_nodes) +:+ " nodes...");
  let '(ip_list, node_map) := extract_ips sampled_nodes [] [] in
  geo_data ← get_ip_country_batch ip_list;
  '(processed_data, country_counter, sanctioned_count) ←
    process_items node_map geo_data [] [] 0%Z;
  _ ← write_csv processed_data;
  let total_fetched := Z.of_nat (length processed_data) in
  non_compliance_pct ←
    lift_result (compute_non_compliance_pct sanctioned_count total_fetched);
  now ← datetime_now;
  let summary_lines :=
    build_summary_lines now total_fetched sanctioned_count non_compliance_pct
      country_counter in
  _ ← write_summary_file (join_lines summary_lines);
  _ ← print "Summary generated in daily_summary.txt";
  mret (MainLocals nodes valid_nodes sampled_nodes ip_list node_map geo_data
          processed_data country_counter sanctioned_count total_fetched
          non_compliance_pct summary_lines).

(** * Vocabulary of the properties *)

(** A computation leaves unchanged what [f] reads in the world. *)
Definition preserves {A X} (f : world → X) (m : IO A) : Prop :=
  ∀ w, f (m w).2 = f w.

(** [f] does not read the field that an update writes. *)
Definition ignores {X V} (f : world → X) (update : world → V → world) : Prop :=
  ∀ w v, f (update w v) = f w.

(** The request to the directory fails: the transport raises (connection
    error, timeout) or the response has an error status. *)
Definition rpc_call_failed (reply : result (response rpc_body)) : Prop :=
  match reply with
  | Raise _ => True
  | Ok r => is_Some (status_error r)
  end.

(** The directory answers with an empty cluster. *)
Definition rpc_empty_cluster (reply : result (response rpc_body)) : Prop :=
  reply = Ok (Response None (Ok (RpcBody (Some [])))).

(** The peers a reply carries: those under ['result'] of a decoded body
    of a response with a good status. *)
Definition rpc_reply_nodes (reply : result (response rpc_body)) : list node :=
  match reply with
  | Ok (Response None (Ok (RpcBody (Some r)))) => r
  | _ => []
  end.

(** The host of a peer: its gossip address up to the first colon. *)
Definition host_of (nd : node) : string :=
  split_colon_0 (default "" (gossip nd)).

(** What one iteration of the extraction loop does to [node_map]. *)
Definition node_map_step (d : odict node) (nd : node) : odict node :=
  if truthy (gossip nd) then od_set (host_of nd) nd d else d.

(** The peer that stays in the working set for a host: the last of the
    peers with a gossip address that have this host. *)
Definition kept_for (h : string) (sampled : list node) : option node :=
  last (filter (λ nd, truthy (gossip nd) ∧ host_of nd = h) sampled).

(** What the caller reads for a host: the resolver's entry, or the
    sentinel [{'code': 'XX', 'name': 'Unknown'}] when there is none. *)
Definition resolved (geo_data : gmap string location) (ip : string) : location :=
  default (Location "XX" "Unknown") (geo_data !! ip).

(** The row built for one entry of the working set, read at time [ts]. *)
Definition row_for (geo_data : gmap string location) (ts : string)
    (ip : string) (nd : node) : scan_row :=
  ScanRow ts (pubkey nd) ip (version nd)
    (code (resolved geo_data ip)) (name (resolved geo_data ip))
    (bool_decide (code (resolved geo_data ip) ∈ OFAC_COUNTRIES)).

(** The rows of a run that starts classifying in world [w]. *)
Definition rows_for (geo_data : gmap string location) (w : world)
    (items : list (string * node)) : list scan_row :=
  imap (λ n item, row_for geo_data (isoformat (wall_clock w (clock_reads w + n)))
                    item.1 item.2) items.

(** The counter after tallying a sequence of codes. *)
Definition tally_from (c : odict Z) (codes : list string) : odict Z :=
  foldl (λ c k, counter_incr k c) c codes.

(** The counter of a run: the tally of the codes of its rows, from an
    empty counter. *)
Definition tally (codes : list string) : odict Z := tally_from [] codes.

(** The number of rows that are flagged. *)
Definition count_sanctioned (rows : list scan_row) : Z :=
  Z.of_nat (length (filter (λ r, is_ofac_sanctioned r = true) rows)).

(** The number of times a code occurs. *)
Definition occurrences (k : string) (codes : list string) : nat :=
  length (filter (λ x, x = k) codes).

(** The place at which a code is first encountered; the length of the
    list when it never is. *)
Fixpoint first_pos (k : string) (codes : list string) : nat :=
  match codes with
  | [] => 0
  | x :: codes' => if decide (x = k) then 0 else S (first_pos k codes')
  end.

(** [a] counts at least as much as [b]. *)
Definition count_ge (a b : string * Z) : Prop := (b.2 ≤ a.2)%Z.

(** The chunks the resolver sends, in order. *)
Definition chunks_of (ips : list string) : list (list string) :=
  (λ i, slice ips i (i + 100)) <$> range3 0 (length ips) 100.

(** The entries a decoded reply stores: those of its items up to the
    first one that has no ['query']. *)
Fixpoint stored_entries (data : list geo_item) : list (string * location) :=
  match data with
  | [] => []
  | item :: rest =>
      match query item with
      | None => []
      | Some q =>
          (q, Location (default "Unknown" (countryCode item))
                       (default "Unknown" (country item)))
            :: stored_entries rest
      end
  end.

(** The entries a reply stores: none when the request or the decoding of
    the body raises. *)
Definition reply_entries (reply : result (response (list geo_item)))
    : list (string * location) :=
  match reply with
  | Ok r => match json r with Ok data => stored_entries data | Raise _ => [] end
  | Raise _ => []
  end.

(** Storing entries one after the other. *)
Definition store_all (results : gmap string location)
    (entries : list (string * location)) : gmap string location :=
  foldl (λ m e, <[e.1 := e.2]> m) results entries.

(** The [except] clause runs for a chunk: the request raises, the body
    does not decode, or an item of the reply has no ['query']. *)
Definition chunk_failed (reply : result (response (list geo_item))) : Prop :=
  match reply with
  | Raise _ => True
  | Ok r =>
      match json r with
      | Raise _ => True
      | Ok data => ∃ item, item ∈ data ∧ query item = None
      end
  end.

(** The replies to the chunks, sent one after the other when [sent]
    requests have gone out before them. *)
Definition geo_replies (w : world) (sent : nat) (chunks : list (list string))
    : list (result (response (list geo_item))) :=
  imap (λ k chunk, geo_endpoint w (sent + k) chunk) chunks.

(** What a run finds in the log before it adds its rows: the content of
    the file, or the header when there was no file. *)
Definition log_before (file : option (list csv_record)) : list csv_record :=
  default [fieldnames] file.

(** The sampling step of [main] returns the valid peers when they are
    at most [SAMPLE_SIZE], and [SAMPLE_SIZE] of them otherwise. *)
Definition sampling (valid : list node) : IO (list node) :=
  if bool_decide (SAMPLE_SIZE < length valid)
  then random_sample valid SAMPLE_SIZE
  else mret valid.

(** How the local variables of a run of [main] from world [w] are
    related, as the script computes them, and what the run leaves in
    the two files. *)
Record run_facts (w : world) (l : main_locals) (w' : world) : Prop := RunFacts {
  run_nodes :
    nodes l = rpc_reply_nodes (rpc_endpoint w (length (http_log w)));
  run_valid_nodes :
    valid_nodes l = filter (λ n, truthy (gossip n)) (nodes l);
  run_sampled_nodes :
    if decide (SAMPLE_SIZE < length (valid_nodes l))
    then length (sampled_nodes l) = SAMPLE_SIZE
         ∧ sampled_nodes l ⊆+ valid_nodes l
    else sampled_nodes l = valid_nodes l;
  run_extract :
    (ip_list l, node_map l) = extract_ips (sampled_nodes l) [] [];
  run_geo_data :
    geo_data l
      = store_all ∅
          (concat (reply_entries
                     <$> geo_replies w (S (length (http_log w)))
                           (chunks_of (ip_list l))));
  run_http_log :
    http_log w'
      = http_log w ++ RpcRequest :: (GeoRequest <$> chunks_of (ip_list l));
  run_processed_data :
    processed_data l = rows_for (geo_data l) w (node_map l);
  run_country_counter :
    country_counter l = tally (country_code <$> processed_data l);
  run_sanctioned_count :
    sanctioned_count l = count_sanctioned (processed_data l);
  run_total_fetched :
    total_fetched l = Z.of_nat (length (processed_data l));
  run_non_compliance_pct :
    compute_non_compliance_pct (sanctioned_count l) (total_fetched l)
      = Ok (non_compliance_pct l);
  run_summary_lines :
    summary_lines l
      = build_summary_lines
          (wall_clock w (clock_reads w + length (node_map l)))
          (total_fetched l) (sanctioned_count l)
          (non_compliance_pct l) (country_counter l);
  run_csv_file :
    csv_file w'
      = Some (log_before (csv_file w) ++ (row_to_record <$> processed_data l));
  run_summary_file :
    summary_file w' = Some (join_lines (summary_lines l))
}.

(** The reading of C4 that fails: the hosts of a chunk for which the
    [except] clause ran are absent from the result. *)
Definition failed_chunk_hosts_omitted : Prop :=
  ∀ (ips : list string) (w : world) (results : gmap string location)
    (w' : world) (k : nat) (chunk : list string) (h : string),
    get_ip_country_batch ips w = (Ok results, w') →
    chunks_of ips !! k = Some chunk →
    chunk_failed (geo_endpoint w (length (http_log w) + k) chunk) →
    h ∈ chunk →
    results !! h = None.

(** The exception that the [try] block of [get_gossip_nodes] raises, if
    it raises: from the request, from the status check or from the
    decoding of the body, whichever comes first. *)
Definition rpc_error (reply : result (response rpc_body)) : option exn :=
  match reply with
  | Raise e => Some e
  | Ok r =>
      match status_error r with
      | Some e => Some e
      | None => match json r with Raise e => Some e | Ok _ => None end
      end
  end.

(** The exception that storing the items of a decoded reply raises, if
    it raises: the [KeyError] of the first item without ['query']. *)
Fixpoint data_error (data : list geo_item) : option exn :=
  match data with
  | [] => None
  | item :: rest =>
      match query item with
      | None => Some (Exn "KeyError" "'query'")
      | Some _ => data_error rest
      end
  end.

(** The exception that the [try] block of a chunk raises, if it raises. *)
Definition chunk_error (reply : result (response (list geo_item))) : option exn :=
  match reply with
  | Raise e => Some e
  | Ok r => match json r with Raise e => Some e | Ok data => data_error data end
  end.

(** The line printed for a chunk that starts at offset [i], if its
    [try] block raises. *)
Definition chunk_error_line (i : nat)
    (reply : result (response (list geo_item))) : list string :=
  match chunk_error reply with
  | Some e => ["Error geolocating chunk " +:+ pretty i +:+ ": " +:+ exn_msg e]
  | None => []
  end.

(** The lines printed for the chunks that start at the offsets [starts]. *)
Definition chunk_error_lines (starts : list nat)
    (replies : list (result (response (list geo_item)))) : list string :=
  concat (zip_with chunk_error_line starts replies).

(** The line printed by [get_gossip_nodes], if its [try] block raises. *)
Definition rpc_error_line (reply : result (response rpc_body)) : list string :=
  match rpc_error reply with
  | Some e => ["Error fetching cluster nodes: " +:+ exn_msg e]
  | None => []
  end.

(** A string without a colon. *)
Definition no_colon (s : string) : Prop :=
  ∀ pre post, s ≠ pre +:+ String ":" post.

(** The sum of the counts of the given codes. *)
Definition count_of_codes (c : odict Z) (codes : list string) : Z :=
  foldr (λ k acc, (counter_get c k + acc)%Z) 0%Z codes.

(** ** Example worlds *)

(** A world in which nothing has happened yet, given what its two
    endpoints reply. *)
Definition fresh_world (rpc : nat → result (response rpc_body))
    (geo : nat → list string → result (response (list geo_item))) : world :=
  World rpc geo [] (λ _ _, 0) 0 (λ n, DateTime ("T" +:+ pretty n) "D") 0 None None [].

(** The directory cannot be reached. *)
Definition world_down : world :=
  fresh_world (λ _, Raise (Exn "ConnectionError" "connection refused"))
              (λ _ _, Raise (Exn "ConnectionError" "connection refused")).

(** The directory returns three peers on three hosts; the geolocation
    service knows the first two and returns no country for the third. *)
Definition example_nodes (pk1 v1 pk2 v2 pk3 v3 : option string) : list node :=
  [ Node (Some "1.1.1.1:8001") pk1 v1;
    Node (Some "2.2.2.2:8001") pk2 v2;
    Node (Some "3.3.3.3:8001") pk3 v3 ].

Definition example_reply (name1 name2 : option string) : list geo_item :=
  [ GeoItem (Some "1.1.1.1") (Some "US") name1;
    GeoItem (Some "2.2.2.2") (Some "RU") name2;
    GeoItem (Some "3.3.3.3") None None ].

Definition example_world (pk1 v1 pk2 v2 pk3 v3 name1 name2 : option string)
    (rnd : nat → nat → nat) (clock : nat → datetime)
    (csv : option (list csv_record)) (summary : option string)
    (out : list string) : world :=
  World (λ _, Ok (Response None (Ok (RpcBody (Some (example_nodes pk1 v1 pk2 v2 pk3 v3))))))
        (λ _ _, Ok (Response None (Ok (example_reply name1 name2))))
        [] rnd 0 clock 0 csv summary out.

Definition three_peers_world : world :=
  example_world (Some "pk1") (Some "1.18.0") (Some "pk2") None None None
    (Some "United States") (Some "Russia")
    (λ _ _, 0) (λ _, DateTime "2024-01-01T00:00:00" "2024-01-01 00:00:00")
    None None [].

(** Two of three peers share a host. *)
Definition collision_world : world :=
  fresh_world
    (λ _, Ok (Response None (Ok (RpcBody (Some
       [ Node (Some "1.1.1.1:8001") (Some "first") None;
         Node (Some "2.2.2.2:8001") (Some "other") None;
         Node (Some "1.1.1.1:8002") (Some "second") None ])))))
    (λ _ _, Ok (Response None (Ok []))).

(** The directory returns 151 peers with a gossip address and one
    without. *)
Definition crowded_world : world :=
  fresh_world
    (λ _, Ok (Response None (Ok (RpcBody (Some
       (Node None (Some "silent") None
          :: replicate 151 (Node (Some "9.9.9.9:8001") None None)))))))
    (λ _ _, Raise (Exn "ConnectionError" "connection refused")).

(** The geolocation service answers with one good item followed by an
    item without ['query']. *)
Definition half_reply_world : world :=
  fresh_world
    (λ _, Raise (Exn "ConnectionError" "connection refused"))
    (λ _ _, Ok (Response None (Ok
       [ GeoItem (Some "1.1.1.1") (Some "US") (Some "United States");
         GeoItem None None None ]))).

(** Two codes tie and a third counts more. *)
Definition ties_world : world :=
  fresh_world
    (λ _, Ok (Response None (Ok (RpcBody (Some
       [ Node (Some "1.1.1.1:8001") None None;
         Node (Some "2.2.2.2:8001") None None;
         Node (Some "3.3.3.3:8001") None None;
         Node (Some "4.4.4.4:8001") None None ])))))
    (λ _ _, Ok (Response None (Ok
       [ GeoItem (Some "1.1.1.1") (Some "US") (Some "United States");
         GeoItem (Some "2.2.2.2") (Some "DE") (Some "Germany");
         GeoItem (Some "3.3.3.3") (Some "RU") (Some "Russia");
         GeoItem (Some "4.4.4.4") (Some "DE") (Some "Germany") ]))).

(** The directory answers with three peers, and every request to the
    geolocation service fails. *)
Definition geolocation_down_world : world :=
  fresh_world
    (λ _, Ok (Response None (Ok (RpcBody (Some
       (example_nodes (Some "pk1") None (Some "pk2") None (Some "pk3") None))))))
    (λ _ _, Raise (Exn "Timeout" "timed out")).

(** * Properties *)


(** ** Running the monad *)

Lemma run_bind {A B} (m : IO A) (f : A → IO B) (w : world) :
  (m ≫= f) w =
  match m w with
  | (Ok a, w') => f a w'
  | (Raise e, w') => (Raise e, w')
  end.
Proof. reflexivity. Qed.

Lemma run_ret {A} (a : A) (w : world) : (mret a : IO A) w = (Ok a, w).
Proof. reflexivity. Qed.

Lemma run_bind_ret {A B} (a : A) (f : A → IO B) (w : world) :
  (mret a ≫= f) w = f a w.
Proof. reflexivity. Qed.

Ltac io_run :=
  repeat first
    [ rewrite run_bind_ret | rewrite run_bind | rewrite run_ret
    | progress cbv beta iota ].

(** ** What a computation leaves unchanged *)

Section preserves.
Context {X : Type} (f : world → X).

Lemma preserves_ret {A} (a : A) : preserves f (mret a : IO A).
Proof. by intros w. Qed.

Lemma preserves_raise {A} (e : exn) : preserves f (raise e : IO A).
Proof. by intros w. Qed.

Lemma preserves_lift_result {A} (r : result A) : preserves f (lift_result r).
Proof. by intros w. Qed.

Lemma preserves_index {A} (l : list A) i : preserves f (index l i).
Proof. unfold index. by destruct (l !! i). Qed.

Lemma preserves_bind {A B} (m : IO A) (k : A → IO B) :
  preserves f m → (∀ a, preserves f (k a)) → preserves f (m ≫= k).
Proof.
  intros Hm Hk w. rewrite run_bind. specialize (Hm w).
  destruct (m w) as [[a|e] w1]; simpl in *; [|done].
  by rewrite Hk.
Qed.

Lemma preserves_try_except {A} (body : IO A) (handler : exn → IO A) :
  preserves f body → (∀ e, preserves f (handler e)) →
  preserves f (try_except body handler).
Proof.
  intros Hb Hh w. unfold try_except. specialize (Hb w).
  destruct (body w) as [[a|e] w1]; simpl in *; [done|].
  by rewrite Hh.
Qed.

Lemma preserves_try_except_inplace {S} (s0 : S) body handler :
  preserves f body → (∀ e, preserves f (handler e)) →
  preserves f (try_except_inplace s0 body handler).
Proof.
  intros Hb Hh w. unfold try_except_inplace. specialize (Hb w).
  destruct (body w) as [[[s [[]|e]]|e] w1]; simpl in *; [done| |].
  - specialize (Hh e w1).
    by destruct (handler e w1) as [[[]|e'] w2]; simpl in *; congruence.
  - specialize (Hh e w1).
    by destruct (handler e w1) as [[[]|e'] w2]; simpl in *; congruence.
Qed.

Lemma preserves_print s : ignores f with_stdout → preserves f (print s).
Proof. intros Hf w. apply Hf. Qed.

Lemma preserves_datetime_now : ignores f with_clock_reads → preserves f datetime_now.
Proof. intros Hf w. apply Hf. Qed.

Lemma preserves_randbelow n : ignores f with_rand_calls → preserves f (randbelow n).
Proof. intros Hf w. apply Hf. Qed.

Lemma preserves_requests_post_rpc :
  ignores f with_http_log → preserves f requests_post_rpc.
Proof. intros Hf w. apply Hf. Qed.

Lemma preserves_requests_post_geo hosts :
  ignores f with_http_log → preserves f (requests_post_geo hosts).
Proof. intros Hf w. apply Hf. Qed.
End preserves.

(** Proves that a computation built from the primitives preserves one
    of the fields of the world. *)
Ltac frame :=
  repeat first
    [ apply preserves_bind; [|intros ?]
    | apply preserves_try_except; [|intros ?]
    | apply preserves_try_except_inplace; [|intros ?]
    | apply preserves_ret
    | apply preserves_raise
    | apply preserves_lift_result
    | apply preserves_index
    | apply preserves_print; by intros ? ?
    | apply preserves_datetime_now; by intros ? ?
    | apply preserves_randbelow; by intros ? ?
    | apply preserves_requests_post_rpc; by intros ? ?
    | apply preserves_requests_post_geo; by intros ? ?
    | progress case_match ].

(** ** The directory client *)

Lemma get_gossip_nodes_run (w : world) :
  ∃ w', get_gossip_nodes w
          = (Ok (rpc_reply_nodes (rpc_endpoint w (length (http_log w)))), w')
        ∧ http_log w' = http_log w ++ [RpcRequest].
Proof.
  unfold get_gossip_nodes, try_except, requests_post_rpc, raise_for_status,
    response_json, lift_result, raise, print.
  rewrite !run_bind. simpl.
  destruct (rpc_endpoint w (length (http_log w))) as [[[e|] [[[r|]]|e']]|e];
    simpl; eauto.
Qed.

(** The directory client leaves alone all but the request log and the
    terminal. *)
Lemma preserves_get_gossip_nodes {X} (f : world → X) :
  ignores f with_http_log → ignores f with_stdout → preserves f get_gossip_nodes.
Proof.
  intros Hlog Hout.
  unfold get_gossip_nodes, raise_for_status, response_json.
  repeat first
    [ apply preserves_requests_post_rpc; exact Hlog
    | apply preserves_print; exact Hout
    | progress frame ].
Qed.

(** C5. [get_gossip_nodes] sends one request to the directory, whatever
    comes back, and always returns a list instead of raising.  When the
    call fails (the transport raises, as on a connection error or a
    timeout, or the response has an error status) the list is empty and
    nothing is sent again; what the caller receives is then what it
    receives from a directory that answers with an empty cluster. *)
Theorem get_gossip_nodes_failure_returns_empty (w : world) :
  http_log (get_gossip_nodes w).2 = http_log w ++ [RpcRequest]
  ∧ (∃ nodes, (get_gossip_nodes w).1 = Ok nodes)
  ∧ (rpc_call_failed (rpc_endpoint w (length (http_log w))) →
       (get_gossip_nodes w).1 = Ok []
       ∧ ∀ w0, rpc_empty_cluster (rpc_endpoint w0 (length (http_log w0))) →
               (get_gossip_nodes w0).1 = (get_gossip_nodes w).1).
Proof.
  destruct (get_gossip_nodes_run w) as (w' & Hrun & Hlog).
  rewrite Hrun. simpl. split; [done|]. split; [eauto|].
  intros Hfail.
  assert (rpc_reply_nodes (rpc_endpoint w (length (http_log w))) = []) as ->.
  { destruct (rpc_endpoint w (length (http_log w))) as [[[e|] body]|e];
      simpl in *; try done. }
  split; [done|]. intros w0 Hempty.
  destruct (get_gossip_nodes_run w0) as (w0' & Hrun0 & _).
  rewrite Hrun0. simpl. unfold rpc_empty_cluster in Hempty. by rewrite Hempty.
Qed.

Lemma get_gossip_nodes_failure_witness :
  rpc_call_failed (rpc_endpoint world_down (length (http_log world_down)))
  ∧ (get_gossip_nodes world_down).1 = Ok []
  ∧ http_log (get_gossip_nodes world_down).2 = [RpcRequest].
Proof.
  destruct (get_gossip_nodes_failure_returns_empty world_down) as (Hlog & _ & Hfail).
  split; [exact I|]. split; [|exact Hlog].
  destruct (Hfail I) as [Hempty _]. exact Hempty.
Defined.

(** ** The sampler *)

Lemma insert_swap_out {A} (l : list A) (j : nat) (x y : A) :
  l !! j = Some x → x :: <[j:=y]> l ≡ₚ y :: l.
Proof.
  revert j. induction l as [|a l IH]; intros [|j] Hj; simplify_eq/=.
  - apply Permutation_swap.
  - rewrite Permutation_swap, (IH _ Hj). apply Permutation_swap.
Qed.

(** One step of the sampling loop keeps, between what is drawn and the
    live part of the pool, exactly the elements that were there. *)
Lemma sample_step_perm {A} (pool : list A) (m j : nat) (x y : A) :
  j ≤ m → pool !! j = Some x → pool !! m = Some y →
  x :: take m (<[j:=y]> pool) ≡ₚ take (S m) pool.
Proof.
  intros Hjm Hx Hy.
  rewrite (take_S_r _ _ _ Hy).
  destruct (decide (j = m)) as [->|Hne].
  - rewrite take_insert_ge by lia. simplify_eq. by rewrite Permutation_cons_append.
  - rewrite take_insert_lt by lia.
    rewrite insert_swap_out; [by rewrite Permutation_cons_append|].
    rewrite lookup_take_lt by lia. done.
Qed.

Lemma sample_loop_run {A} (k : nat) :
  ∀ (n : nat) (pool : list A) (i : nat) (w : world),
    length pool = n → i + k ≤ n →
    ∃ s w', sample_loop n pool i k w = (Ok s, w')
            ∧ length s = k ∧ s ⊆+ take (n - i) pool.
Proof.
  induction k as [|k IH]; intros n pool i w Hlen Hik.
  { exists [], w. split; [done|]. split; [done|]. apply submseteq_nil_l. }
  simpl. rewrite run_bind. unfold randbelow at 1. cbv beta iota.
  set (j := (randbelow_src w (rand_calls w) (n - i) mod (n - i))%nat).
  set (w1 := with_rand_calls w (S (rand_calls w))).
  assert (j < n - i) as Hj by (apply Nat.mod_upper_bound; lia).
  destruct (lookup_lt_is_Some_2 pool j) as [x Hx]; [lia|].
  destruct (lookup_lt_is_Some_2 pool (n - i - 1)) as [y Hy]; [lia|].
  unfold index. rewrite Hx, Hy. io_run.
  destruct (IH n (<[j:=y]> pool) (S i) w1) as (s & w' & Hrun & Hs & Hsub);
    [by rewrite length_insert|lia|].
  rewrite Hrun. exists (x :: s), w'. split; [done|]. split; [by rewrite <- Hs|].
  replace (n - i) with (S (n - i - 1)) by lia.
  rewrite <- (sample_step_perm pool (n - i - 1) j x y) by (done || lia).
  apply submseteq_skip. by replace (n - i - 1) with (n - S i) by lia.
Qed.

Lemma preserves_sample_loop {A X} (f : world → X) (k : nat) :
  ignores f with_rand_calls →
  ∀ n (pool : list A) i, preserves f (sample_loop n pool i k).
Proof.
  intros Hf. induction k as [|k IH]; intros n pool i; simpl; [frame|].
  apply preserves_bind; [by apply preserves_randbelow|intros j].
  apply preserves_bind; [apply preserves_index|intros x].
  apply preserves_bind; [apply preserves_index|intros y].
  apply preserves_bind; [apply IH|intros rest]. apply preserves_ret.
Qed.

(** [random.sample] on a population that is large enough returns [k]
    elements taken from [k] distinct positions of the population. *)
Lemma random_sample_run {A} (population : list A) (k : nat) (w : world) :
  k ≤ length population →
  ∃ s w', random_sample population k w = (Ok s, w')
          ∧ length s = k ∧ s ⊆+ population.
Proof.
  intros Hk. unfold random_sample.
  destruct (Nat.ltb_spec (length population) k) as [?|_]; [lia|].
  destruct (sample_loop_run k (length population) population 0 w)
    as (s & w' & Hrun & Hs & Hsub); [done|lia|].
  exists s, w'. split; [done|]. split; [done|].
  by rewrite Nat.sub_0_r, firstn_all in Hsub.
Qed.

(** Sampling only advances the random generator. *)
Lemma preserves_random_sample {A X} (f : world → X) (population : list A) (k : nat) :
  ignores f with_rand_calls → preserves f (random_sample population k).
Proof.
  intros Hf. unfold random_sample.
  case_match; [apply preserves_raise|by apply preserves_sample_loop].
Qed.

(** ** Ordered dictionaries *)

Lemma od_get_set {V} (d : odict V) (k k' : string) (v : V) :
  od_get (od_set k v d) k' = if decide (k = k') then Some v else od_get d k'.
Proof.
  induction d as [|[k0 v0] d IH]; simpl.
  - by destruct (decide (k = k')).
  - destruct (decide (k0 = k)) as [->|Hne]; simpl.
    + by destruct (decide (k = k')).
    + rewrite IH. destruct (decide (k0 = k')) as [->|]; [|done].
      by rewrite decide_False.
Qed.

Lemma od_get_Some_elem {V} (d : odict V) (k : string) (v : V) :
  od_get d k = Some v → (k, v) ∈ d.
Proof.
  induction d as [|[k0 v0] d IH]; simpl; [done|].
  destruct (decide (k0 = k)) as [->|]; intros H; simplify_eq.
  - left.
  - right. auto.
Qed.

Lemma elem_od_get {V} (d : odict V) (k : string) (v : V) :
  NoDup d.*1 → (k, v) ∈ d → od_get d k = Some v.
Proof.
  induction d as [|[k0 v0] d IH]; simpl; intros Hnd Hin.
  - by apply elem_of_nil in Hin.
  - apply NoDup_cons in Hnd as [Hk0 Hnd].
    apply elem_of_cons in Hin as [Heq|Hin]; simplify_eq.
    + by rewrite decide_True.
    + rewrite decide_False; [auto|]. intros ->. apply Hk0.
      apply list_elem_of_fmap. by exists (k, v).
Qed.

(** Assigning to a key leaves the keys as they are when the key is there
    and puts the key last when it is new. *)
Lemma od_set_keys {V} (d : odict V) (k : string) (v : V) :
  (od_set k v d).*1 = if decide (k ∈ d.*1) then d.*1 else d.*1 ++ [k].
Proof.
  induction d as [|[k0 v0] d IH]; [done|].
  cbn [od_set]. rewrite fmap_cons. cbn [fst].
  destruct (decide (k0 = k)) as [->|Hne].
  - rewrite fmap_cons. cbn [fst]. by rewrite decide_True by left.
  - rewrite fmap_cons, IH. cbn [fst]. destruct (decide (k ∈ d.*1)).
    + by rewrite decide_True by (by right).
    + rewrite decide_False; [done|]. by intros [->|?]%elem_of_cons.
Qed.

Lemma od_set_NoDup {V} (d : odict V) (k : string) (v : V) :
  NoDup d.*1 → NoDup (od_set k v d).*1.
Proof.
  intros Hnd. rewrite od_set_keys. case_decide; [done|].
  apply NoDup_app. split; [done|]. split; [|apply NoDup_singleton].
  intros x Hx ->%list_elem_of_singleton. done.
Qed.

(** ** The working set *)

(** [split_colon_0] cuts a string in front of its first colon. *)
Lemma split_colon_0_spec (s : string) :
  (∃ rest, s = split_colon_0 s +:+ rest
           ∧ (rest = "" ∨ ∃ r, rest = String ":" r))
  ∧ (∀ pre post, split_colon_0 s ≠ pre +:+ String ":" post).
Proof.
  induction s as [|c s [(rest & Hrest & Hcolon) Hnone]]; simpl.
  - split; [exists ""; auto|]. by intros [|c pre] post.
  - destruct (decide (c = ":"%char)) as [->|Hc]; simpl.
    + split; [exists (String ":" s); eauto|]. by intros [|c pre] post.
    + split.
      { exists rest. split; [|done].
        change (String c s = String c (split_colon_0 s +:+ rest)). by f_equal. }
      intros [|c' pre] post; simpl; intros [= ? Heq]; [done|].
      by apply (Hnone pre post).
Qed.

Lemma extract_ips_fold (sampled : list node) :
  ∀ (ips : list string) (m : odict node),
    extract_ips sampled ips m =
      (ips ++ (host_of <$> filter (λ nd, truthy (gossip nd)) sampled),
       foldl node_map_step m sampled).
Proof.
  induction sampled as [|nd sampled IH]; intros ips m; simpl.
  - by rewrite app_nil_r.
  - unfold node_map_step at 2. rewrite filter_cons.
    destruct (truthy (gossip nd)) eqn:Ht.
    + rewrite IH, decide_True by done. by rewrite <- app_assoc.
    + rewrite IH, decide_False; [done|]. by intros [].
Qed.

Lemma node_map_fold_get (sampled : list node) (m : odict node) (h : string) :
  od_get (foldl node_map_step m sampled) h =
    from_option Some (od_get m h) (kept_for h sampled).
Proof.
  unfold kept_for.
  induction sampled as [|nd sampled IH] using rev_ind; [done|].
  rewrite foldl_app, filter_app, filter_cons, filter_nil. simpl.
  unfold node_map_step at 1.
  destruct (truthy (gossip nd)) eqn:Ht.
  - rewrite od_get_set. destruct (decide (host_of nd = h)) as [Hh|Hh].
    + rewrite decide_True by done. by rewrite last_snoc.
    + rewrite decide_False by (by intros [_ ?]). by rewrite app_nil_r.
  - rewrite decide_False by (by intros [[] _]). by rewrite app_nil_r.
Qed.

Lemma node_map_fold_NoDup (sampled : list node) (m : odict node) :
  NoDup m.*1 → NoDup (foldl node_map_step m sampled).*1.
Proof.
  revert m. induction sampled as [|nd sampled IH]; intros m Hm; [done|].
  simpl. apply IH. unfold node_map_step. case_match; [|done].
  by apply od_set_NoDup.
Qed.

(** ** The classifier *)

Lemma process_items_run (items : list (string * node)) :
  ∀ geo pd cc sc w,
    process_items items geo pd cc sc w =
      (Ok (pd ++ rows_for geo w items,
           tally_from cc (country_code <$> rows_for geo w items),
           (sc + count_sanctioned (rows_for geo w items))%Z),
       with_clock_reads w (clock_reads w + length items)).
Proof.
  induction items as [|[ip nd] items IH]; intros geo pd cc sc w.
  - simpl. rewrite run_ret, app_nil_r, Z.add_0_r, Nat.add_0_r. by destruct w.
  - cbn [process_items]. rewrite run_bind. unfold datetime_now at 1. cbv beta iota.
    rewrite IH. unfold rows_for. rewrite imap_cons. cbn [fst snd].
    set (w1 := with_clock_reads w (S (clock_reads w))).
    assert (imap (λ n item, row_for geo (isoformat (wall_clock w1 (clock_reads w1 + n)))
                              item.1 item.2) items
            = imap ((λ n item, row_for geo (isoformat (wall_clock w (clock_reads w + n)))
                              item.1 item.2) ∘ S) items) as ->.
    { apply imap_ext. intros n [ip' nd'] _. simpl. by rewrite Nat.add_succ_r. }
    set (rest := imap _ items). rewrite Nat.add_0_r.
    set (row := row_for geo _ ip nd).
    f_equal; [|subst w1; destruct w; simpl; f_equal; lia].
    f_equal. unfold row, row_for, resolved. cbn [country_code is_ofac_sanctioned].
    f_equal; [f_equal|].
    + by rewrite <- app_assoc.
    + unfold count_sanctioned. rewrite filter_cons. cbn [is_ofac_sanctioned].
      destruct (bool_decide _) eqn:Hb.
      * rewrite decide_True by done. cbn [length]. lia.
      * rewrite decide_False by done. lia.
Qed.

Lemma length_rows_for geo w items : length (rows_for geo w items) = length items.
Proof. apply length_imap. Qed.

(** Each row is the row of the entry of the working set at its place. *)
Lemma rows_for_lookup geo w items i r :
  rows_for geo w items !! i = Some r →
  ∃ ip nd ts, items !! i = Some (ip, nd) ∧ r = row_for geo ts ip nd.
Proof.
  unfold rows_for. rewrite list_lookup_imap.
  destruct (items !! i) as [[ip nd]|]; simpl; [|done].
  intros [= <-]. eauto.
Qed.

(** ** The tally *)

Lemma first_pos_app_elem k l l' : k ∈ l → first_pos k (l ++ l') = first_pos k l.
Proof.
  induction l as [|x l IH]; intros Hin; [by apply elem_of_nil in Hin|].
  simpl. destruct (decide (x = k)) as [|Hne]; [done|].
  apply elem_of_cons in Hin as [->|Hin]; [done|]. by rewrite IH.
Qed.

Lemma first_pos_app_not_elem k l l' :
  k ∉ l → first_pos k (l ++ l') = length l + first_pos k l'.
Proof.
  induction l as [|x l IH]; intros Hnin; [done|].
  apply not_elem_of_cons in Hnin as [Hne Hnin].
  simpl. rewrite decide_False by done. by rewrite IH.
Qed.

Lemma first_pos_elem_lt k l : k ∈ l → first_pos k l < length l.
Proof.
  induction l as [|x l IH]; intros Hin; [by apply elem_of_nil in Hin|].
  simpl. destruct (decide (x = k)) as [|Hne]; [lia|].
  apply elem_of_cons in Hin as [->|Hin]; [done|]. specialize (IH Hin). lia.
Qed.

Lemma counter_get_incr c k k' :
  counter_get (counter_incr k c) k' =
    if decide (k = k') then (counter_get c k + 1)%Z else counter_get c k'.
Proof.
  unfold counter_get, counter_incr. rewrite od_get_set. by case_decide.
Qed.

Lemma sum_values_od_set (c : odict Z) (k : string) (v : Z) :
  sum_values (od_set k v c) = (sum_values c - counter_get c k + v)%Z.
Proof.
  unfold sum_values, counter_get.
  induction c as [|[k0 v0] c IH]; cbn [od_set od_get]; [simpl; lia|].
  destruct (decide (k0 = k)); rewrite !fmap_cons; cbn [foldr snd default from_option id].
  - lia.
  - rewrite IH. lia.
Qed.

Lemma sum_values_incr (c : odict Z) (k : string) :
  sum_values (counter_incr k c) = (sum_values c + 1)%Z.
Proof. unfold counter_incr. rewrite sum_values_od_set. lia. Qed.

Lemma tally_snoc codes k : tally (codes ++ [k]) = counter_incr k (tally codes).
Proof. unfold tally, tally_from. by rewrite foldl_app. Qed.

(** Every code tallied adds one to the sum of the counts. *)
Lemma tally_sum codes : sum_values (tally codes) = Z.of_nat (length codes).
Proof.
  induction codes as [|k codes IH] using rev_ind; [done|].
  rewrite tally_snoc, sum_values_incr, IH, length_app. simpl. lia.
Qed.

Lemma tally_get codes k : counter_get (tally codes) k = Z.of_nat (occurrences k codes).
Proof.
  unfold occurrences.
  induction codes as [|x codes IH] using rev_ind; [done|].
  rewrite tally_snoc, counter_get_incr, filter_app, length_app, filter_cons, filter_nil.
  destruct (decide (x = k)) as [->|Hne].
  - rewrite IH. simpl. lia.
  - rewrite IH. simpl. lia.
Qed.

Lemma tally_keys_snoc codes k :
  (tally (codes ++ [k])).*1 =
    if decide (k ∈ (tally codes).*1) then (tally codes).*1 else (tally codes).*1 ++ [k].
Proof. rewrite tally_snoc. apply od_set_keys. Qed.

Lemma tally_keys_elem codes k : k ∈ (tally codes).*1 ↔ k ∈ codes.
Proof.
  induction codes as [|x codes IH] using rev_ind; [done|].
  rewrite tally_keys_snoc, elem_of_app, list_elem_of_singleton, <- IH.
  case_decide as Hx; [|by rewrite elem_of_app, list_elem_of_singleton].
  split; [auto|]. by intros [?| ->].
Qed.

Lemma tally_NoDup codes : NoDup (tally codes).*1.
Proof.
  induction codes as [|x codes IH] using rev_ind; [apply NoDup_nil_2|].
  rewrite tally_snoc. by apply od_set_NoDup.
Qed.

Lemma tally_elem codes k n : (k, n) ∈ tally codes → n = Z.of_nat (occurrences k codes).
Proof.
  intros Hin. rewrite <- tally_get. unfold counter_get.
  by rewrite (elem_od_get _ _ _ (tally_NoDup codes) Hin).
Qed.

(** The counter holds its codes in the order they were first tallied. *)
Lemma tally_order codes a b :
  [a; b] `sublist_of` (tally codes).*1 → first_pos a codes < first_pos b codes.
Proof.
  induction codes as [|x codes IH] using rev_ind.
  { intros H%sublist_nil_r. done. }
  rewrite tally_keys_snoc. intros Hsub.
  assert (∀ k, k ∈ (tally codes).*1 → first_pos k (codes ++ [x]) = first_pos k codes)
    as Hsame.
  { intros k Hk. apply first_pos_app_elem. by apply tally_keys_elem. }
  assert ([a; b] `sublist_of` (tally codes).*1 →
          first_pos a (codes ++ [x]) < first_pos b (codes ++ [x])) as Hold.
  { intros Hab. rewrite !Hsame; [by apply IH| |].
    - apply (elem_of_sublist [a; b]); [|done]. right. left.
    - apply (elem_of_sublist [a; b]); [|done]. left. }
  case_decide as Hx; [by apply Hold|].
  apply sublist_app_r in Hsub as (l1 & l2 & Heq & Hl1 & Hl2).
  destruct l1 as [|a' [|b' l1]]; simpl in Heq.
  - subst l2. apply sublist_length in Hl2. simpl in Hl2. lia.
  - injection Heq as Ha' Hl2'. subst a' l2.
    apply sublist_cons_r in Hl2 as [Hl2|(l' & Hb & _)];
      [by apply sublist_nil_r in Hl2|].
    injection Hb as Hb _. subst x.
    assert (a ∈ (tally codes).*1) as Ha.
    { apply (elem_of_sublist [a]); [left|done]. }
    rewrite (Hsame _ Ha), first_pos_app_not_elem by (by rewrite <- tally_keys_elem).
    apply (proj1 (tally_keys_elem codes a)), first_pos_elem_lt in Ha.
    cbn [first_pos]. rewrite decide_True by done. lia.
  - injection Heq as Ha' Hb' Hnil. subst a' b'.
    symmetry in Hnil. apply app_eq_nil in Hnil as [-> _]. by apply Hold.
Qed.

(** ** Sorting by descending count *)

Lemma insert_by_count_perm x l : insert_by_count x l ≡ₚ x :: l.
Proof.
  induction l as [|y l IH]; simpl; [done|].
  case_bool_decide; [done|]. by rewrite IH, Permutation_swap.
Qed.

Lemma sorted_by_count_desc_perm l : sorted_by_count_desc l ≡ₚ l.
Proof.
  induction l as [|x l IH]; [done|].
  unfold sorted_by_count_desc in *. simpl. by rewrite insert_by_count_perm, IH.
Qed.

Lemma insert_by_count_sorted x l :
  StronglySorted count_ge l → StronglySorted count_ge (insert_by_count x l).
Proof.
  induction l as [|y l IH]; intros Hl; simpl.
  - by repeat constructor.
  - apply StronglySorted_inv in Hl as [Hl Hy]. case_bool_decide as Hxy.
    + constructor; [by constructor|]. constructor; [done|].
      eapply Forall_impl; [exact Hy|]. unfold count_ge. intros z Hz. lia.
    + constructor; [by apply IH|].
      rewrite insert_by_count_perm. constructor; [|done]. unfold count_ge. lia.
Qed.

Lemma sorted_by_count_desc_sorted l : StronglySorted count_ge (sorted_by_count_desc l).
Proof.
  induction l as [|x l IH]; [constructor|].
  by apply insert_by_count_sorted.
Qed.

(** Inserting an item does not reorder the items of any one count. *)
Lemma insert_by_count_filter (n : Z) x l :
  filter (λ p : string * Z, p.2 = n) (insert_by_count x l) =
  filter (λ p : string * Z, p.2 = n) (x :: l).
Proof.
  induction l as [|y l IH]; simpl; [done|].
  case_bool_decide as Hxy; [done|].
  rewrite filter_cons, IH, !filter_cons.
  repeat case_decide; (done || lia).
Qed.

(** The sort is stable: the items of any one count stay in the order
    they had. *)
Lemma sorted_by_count_desc_stable (n : Z) l :
  filter (λ p : string * Z, p.2 = n) (sorted_by_count_desc l) =
  filter (λ p : string * Z, p.2 = n) l.
Proof.
  induction l as [|x l IH]; [done|].
  unfold sorted_by_count_desc in *. simpl.
  by rewrite insert_by_count_filter, !filter_cons, IH.
Qed.

(** ** The resolver *)

Lemma store_items_entries data results :
  (store_items data results).1 = store_all results (stored_entries data).
Proof.
  revert results. induction data as [|item data IH]; intros results; [done|].
  simpl. destruct (query item); [|done]. by rewrite IH.
Qed.

Lemma store_all_app results es1 es2 :
  store_all results (es1 ++ es2) = store_all (store_all results es1) es2.
Proof. apply foldl_app. Qed.

Lemma store_all_lookup_None results es h :
  store_all results es !! h = None ↔ results !! h = None ∧ h ∉ es.*1.
Proof.
  revert results. induction es as [|[k v] es IH]; intros results.
  - simpl. split; [intros ?; split; [done|apply not_elem_of_nil]|by intros [? _]].
  - cbn [store_all foldl fst snd]. fold (store_all (<[k:=v]> results) es).
    rewrite IH, fmap_cons, not_elem_of_cons, lookup_insert_None. cbn [fst].
    split; [intros [[? ?] ?]|intros [? [? ?]]]; by repeat split.
Qed.

Lemma geolocate_chunk_run ips results i w :
  let chunk := slice ips i (i + 100) in
  ∃ w', geolocate_chunk ips results i w
          = (Ok (store_all results
                   (reply_entries (geo_endpoint w (length (http_log w)) chunk))), w')
        ∧ http_log w' = http_log w ++ [GeoRequest chunk]
        ∧ geo_endpoint w' = geo_endpoint w.
Proof.
  intros chunk. unfold geolocate_chunk, try_except_inplace. fold chunk.
  rewrite run_bind. unfold requests_post_geo at 1. cbv beta iota.
  set (w1 := with_http_log w (http_log w ++ [GeoRequest chunk])).
  destruct (geo_endpoint w (length (http_log w)) chunk) as [[st [data|e]]|e];
    simpl.
  - rewrite <- store_items_entries.
    destruct (store_items data results) as [results' [[]|e]]; simpl; eauto.
  - eauto.
  - eauto.
Qed.

Lemma for_chunks_run ips (starts : list nat) :
  ∀ results w,
    let chunks := (λ i, slice ips i (i + 100)) <$> starts in
    ∃ w', for_chunks ips starts results w
            = (Ok (store_all results
                     (concat (reply_entries
                                <$> geo_replies w (length (http_log w)) chunks))), w')
          ∧ http_log w' = http_log w ++ (GeoRequest <$> chunks)
          ∧ geo_endpoint w' = geo_endpoint w.
Proof.
  induction starts as [|i starts IH]; intros results w chunks.
  - exists w. subst chunks. simpl. by rewrite app_nil_r.
  - cbn [for_chunks]. rewrite run_bind.
    destruct (geolocate_chunk_run ips results i w) as (w1 & -> & Hlog1 & Hgeo1).
    destruct (IH (store_all results
                    (reply_entries (geo_endpoint w (length (http_log w))
                                      (slice ips i (i + 100))))) w1)
      as (w' & -> & Hlog & Hgeo).
    exists w'. subst chunks. unfold geo_replies. rewrite !fmap_cons, imap_cons.
    rewrite fmap_cons, concat_cons, store_all_app, Nat.add_0_r.
    rewrite Hlog, Hlog1, Hgeo1, <- app_assoc. split; [|by rewrite Hgeo].
    do 5 f_equal. apply imap_ext. intros k c _. simpl.
    rewrite length_app. simpl. f_equal. lia.
Qed.

(** The resolver leaves alone all but the request log and the terminal. *)
Lemma preserves_for_chunks {X} (f : world → X) ips starts :
  ignores f with_http_log → ignores f with_stdout →
  ∀ results, preserves f (for_chunks ips starts results).
Proof.
  intros Hlog Hout.
  induction starts as [|i starts IH]; intros results; simpl;
    [apply preserves_ret|].
  apply preserves_bind; [|done].
  unfold geolocate_chunk, response_json.
  apply preserves_try_except_inplace; [|intros e; by apply preserves_print].
  apply preserves_bind; [by apply preserves_requests_post_geo|intros r].
  frame.
Qed.

Lemma get_ip_country_batch_run ips w :
  ∃ w', get_ip_country_batch ips w
          = (Ok (store_all ∅
                   (concat (reply_entries
                              <$> geo_replies w (length (http_log w))
                                    (chunks_of ips)))), w')
        ∧ http_log w' = http_log w ++ (GeoRequest <$> chunks_of ips).
Proof.
  unfold get_ip_country_batch.
  destruct (for_chunks_run ips (range3 0 (length ips) 100) ∅ w) as (w' & Hrun & Hlog & _).
  eauto.
Qed.

Lemma preserves_get_ip_country_batch {X} (f : world → X) ips :
  ignores f with_http_log → ignores f with_stdout →
  preserves f (get_ip_country_batch ips).
Proof. intros Hlog Hout. by apply preserves_for_chunks. Qed.

Lemma chunks_of_eq ips :
  chunks_of ips =
    (λ q, take 100 (drop (q * 100) ips)) <$> seq 0 ((length ips + 99) / 100).
Proof.
  unfold chunks_of, range3, slice. rewrite <- list_fmap_compose.
  replace (length ips - 0 + 100 - 1) with (length ips + 99) by lia.
  apply list_fmap_ext. intros _ q _. simpl.
  by replace (q * 100 + 100 - q * 100) with 100 by lia.
Qed.

Lemma concat_takes (s : nat) :
  ∀ (m : nat) (l : list string),
    length l ≤ m * s →
    concat ((λ q, take s (drop (q * s) l)) <$> seq 0 m) = l.
Proof.
  induction m as [|m IH]; intros l Hlen.
  - destruct l; [done|]. simpl in Hlen. lia.
  - cbn [seq]. rewrite fmap_cons, concat_cons, <- fmap_S_seq, <- list_fmap_compose.
    transitivity (take s l ++ drop s l); [|apply take_drop]. f_equal.
    rewrite <- (IH (drop s l)) by (rewrite length_drop; lia).
    f_equal. apply list_fmap_ext. intros _ q _. simpl.
    by rewrite drop_drop.
Qed.

(** The chunks are the host list cut into pieces, in order. *)
Lemma concat_chunks_of ips : concat (chunks_of ips) = ips.
Proof.
  rewrite chunks_of_eq. apply concat_takes.
  pose proof (Nat.div_mod_eq (length ips + 99) 100) as Hdiv.
  pose proof (Nat.mod_upper_bound (length ips + 99) 100) as Hmod. lia.
Qed.

(** Every chunk holds at least one host and at most a hundred. *)
Lemma chunks_of_sizes ips :
  Forall (λ chunk, 0 < length chunk ≤ 100) (chunks_of ips).
Proof.
  rewrite chunks_of_eq. apply Forall_fmap, Forall_forall. intros q Hq.
  apply elem_of_seq in Hq. simpl.
  rewrite length_take, length_drop.
  pose proof (Nat.div_mod_eq (length ips + 99) 100) as Hdiv. lia.
Qed.

Lemma length_chunks_of ips : length (chunks_of ips) = (length ips + 99) / 100.
Proof. by rewrite chunks_of_eq, length_fmap, length_seq. Qed.

(** ** The report writer *)

Lemma run_print s w : print s w = (Ok tt, with_stdout w (stdout w ++ [s])).
Proof. reflexivity. Qed.

Lemma write_csv_run (pd : list scan_row) (w : world) :
  ∃ w', write_csv pd w = (Ok tt, w')
        ∧ csv_file w' = Some (log_before (csv_file w) ++ (row_to_record <$> pd))
        ∧ clock_reads w' = clock_reads w
        ∧ wall_clock w' = wall_clock w
        ∧ http_log w' = http_log w.
Proof.
  unfold write_csv, os_path_isfile_csv, open_append_csv, csv_write, print, log_before.
  rewrite !run_bind. simpl.
  destruct (csv_file w) as [c|] eqn:Hc; simpl; eauto 10.
Qed.

(** The division is guarded: the percentage is always computed. *)
Lemma compute_non_compliance_pct_ok (sc total : Z) :
  ∃ v, compute_non_compliance_pct sc total = Ok v
       ∧ (total = 0%Z → v = PyInt 0).
Proof.
  unfold compute_non_compliance_pct, truediv.
  case_bool_decide as Hpos.
  - rewrite decide_False by lia. simpl. eexists. split; [done|]. lia.
  - eexists. split; [done|]. done.
Qed.

(** ** The whole run *)

Lemma sampling_run (valid : list node) (w : world) :
  ∃ s w',
    sampling valid w = (Ok s, w')
    ∧ (if decide (SAMPLE_SIZE < length valid)
       then length s = SAMPLE_SIZE ∧ s ⊆+ valid
       else s = valid).
Proof.
  unfold sampling. case_bool_decide as Hlen.
  - destruct (random_sample_run valid SAMPLE_SIZE w) as (s & w' & Hrun & Hs & Hsub);
      [lia|].
    exists s, w'. by rewrite decide_True by done.
  - exists valid, w. by rewrite decide_False by done.
Qed.

Lemma preserves_sampling {X} (f : world → X) valid :
  ignores f with_rand_calls → preserves f (sampling valid).
Proof.
  intros Hf. unfold sampling.
  case_match; [by apply preserves_random_sample|apply preserves_ret].
Qed.

(** [main] always returns. *)
Lemma main_run (w : world) :
  ∃ l w', main w = (Ok l, w') ∧ run_facts w l w'.
Proof.
  unfold main. rewrite run_bind, run_print. cbv beta iota.
  set (w0 := with_stdout w _).
  rewrite run_bind.
  destruct (get_gossip_nodes_run w0) as (w1 & Hrun1 & Hlog1).
  rewrite Hrun1. cbv beta iota zeta.
  set (nodes0 := rpc_reply_nodes _).
  set (valid := filter _ nodes0).
  rewrite run_bind, run_print. cbv beta iota.
  set (w2 := with_stdout w1 _).
  rewrite run_bind. fold (sampling valid).
  destruct (sampling_run valid w2) as (sampled & w3 & Hrun3 & Hsampled).
  rewrite Hrun3. cbv beta iota.
  rewrite run_bind, run_print. cbv beta iota.
  set (w4 := with_stdout w3 _).
  destruct (extract_ips sampled [] []) as [ips nmap] eqn:Hextract.
  rewrite run_bind.
  destruct (get_ip_country_batch_run ips w4) as (w5 & Hrun5 & Hlog5).
  rewrite Hrun5. cbv beta iota.
  rewrite run_bind, process_items_run. cbv beta iota.
  set (geo := store_all ∅ _).
  set (rows := rows_for geo w5 nmap).
  set (w6 := with_clock_reads w5 _).
  rewrite app_nil_l, Z.add_0_l.
  rewrite run_bind.
  destruct (write_csv_run rows w6) as (w7 & -> & Hcsv7 & Hreads7 & Hclock7 & Hlog7).
  cbv beta iota.
  rewrite run_bind. unfold lift_result at 1.
  destruct (compute_non_compliance_pct_ok (count_sanctioned rows)
              (Z.of_nat (length rows))) as (pct & Hpct & _).
  rewrite Hpct. cbv beta iota.
  rewrite run_bind. unfold datetime_now at 1. cbv beta iota.
  set (w8 := with_clock_reads w7 _).
  rewrite run_bind. unfold write_summary_file at 1. cbv beta iota.
  rewrite run_bind, run_print. cbv beta iota. rewrite run_ret.
  (* what the steps before the classifier leave unchanged *)
  assert (csv_file w5 = csv_file w ∧ geo_endpoint w4 = geo_endpoint w
          ∧ http_log w4 = http_log w ++ [RpcRequest]
          ∧ wall_clock w5 = wall_clock w ∧ clock_reads w5 = clock_reads w)
    as (Hcsv & Hgeo & Hlog & Hclock & Hreads).
  { pose proof (λ X (f : world → X) Hl Ho, preserves_get_gossip_nodes f Hl Ho w0) as P1.
    pose proof (λ X (f : world → X) Hr, preserves_sampling f valid Hr w2) as P3.
    pose proof (λ X (f : world → X) Hl Ho, preserves_get_ip_country_batch f ips Hl Ho w4)
      as P5.
    rewrite Hrun1 in P1. rewrite Hrun3 in P3. rewrite Hrun5 in P5.
    cbn [snd] in P1, P3, P5.
    assert (∀ X (f : world → X),
              ignores f with_http_log → ignores f with_stdout →
              ignores f with_rand_calls → f w5 = f w) as Hframe.
    { intros X f Hl Ho Hr.
      rewrite (P5 _ f Hl Ho). subst w4. rewrite Ho.
      rewrite (P3 _ f Hr). subst w2. rewrite Ho.
      rewrite (P1 _ f Hl Ho). subst w0. by rewrite Ho. }
    repeat split.
    - by apply Hframe.
    - subst w4. cbn [geo_endpoint with_stdout].
      rewrite (P3 _ geo_endpoint) by (by intros ? ?). subst w2.
      cbn [geo_endpoint with_stdout].
      by rewrite (P1 _ geo_endpoint) by (by intros ? ?).
    - subst w4. cbn [http_log with_stdout].
      rewrite (P3 _ http_log) by (by intros ? ?). subst w2.
      cbn [http_log with_stdout]. by rewrite Hlog1.
    - by apply Hframe.
    - by apply Hframe. }
  eexists _, _. split; [reflexivity|].
  split; cbn [nodes valid_nodes sampled_nodes ip_list node_map
    geo_data processed_data country_counter sanctioned_count total_fetched
    non_compliance_pct summary_lines]; try done.
  - subst geo. unfold geo_replies. rewrite Hgeo, Hlog, length_app. simpl.
    by rewrite Nat.add_1_r.
  - subst w8. cbn [http_log with_stdout with_summary_file with_clock_reads].
    rewrite Hlog7. subst w6. cbn [http_log with_clock_reads].
    by rewrite Hlog5, Hlog, <- app_assoc.
  - subst rows. unfold rows_for. by rewrite Hclock, Hreads.
  - by rewrite Hclock7, Hreads7; subst w6; cbn [wall_clock clock_reads with_clock_reads];
      rewrite Hclock, Hreads.
  - subst w8. cbn [csv_file with_stdout with_summary_file with_clock_reads].
    rewrite Hcsv7. subst w6. cbn [csv_file with_clock_reads]. by rewrite Hcsv.
Qed.

Lemma main_inv (w : world) (l : main_locals) (w' : world) :
  main w = (Ok l, w') → run_facts w l w'.
Proof.
  intros Hmain. destruct (main_run w) as (l0 & w0 & Hrun & Hfacts).
  rewrite Hmain in Hrun. by injection Hrun as <- <-.
Qed.

(** ** The claims *)

Lemma ofac_member (k : string) :
  k ∈ OFAC_COUNTRIES ↔ k ∈ ["IR"; "KP"; "CU"; "SY"; "RU"; "BY"; "VE"; "MM"].
Proof.
  unfold OFAC_COUNTRIES.
  rewrite !elem_of_union, !elem_of_singleton, !elem_of_cons, elem_of_nil.
  tauto.
Qed.

(** C1. In every run, each row's country code is the one resolved for
    its host (the resolver's entry, or the sentinel when there is none),
    and the row is flagged as sanctioned if and only if that code is one
    of IR, KP, CU, SY, RU, BY, VE, MM, compared as it is.  A host without
    an entry gets the sentinel code XX and is not flagged, and no row
    whose code is XX or Unknown is flagged. *)
Theorem is_sanctioned_iff_ofac_member (w : world) (l : main_locals) (w' : world)
    (r : scan_row) :
  main w = (Ok l, w') → r ∈ processed_data l →
  country_code r = code (resolved (geo_data l) (gossip_ip r))
  ∧ (is_ofac_sanctioned r = true
     ↔ country_code r ∈ ["IR"; "KP"; "CU"; "SY"; "RU"; "BY"; "VE"; "MM"])
  ∧ (geo_data l !! gossip_ip r = None →
       country_code r = "XX" ∧ is_ofac_sanctioned r = false)
  ∧ (country_code r = "XX" ∨ country_code r = "Unknown" →
       is_ofac_sanctioned r = false).
Proof.
  intros Hmain Hr.
  pose proof (main_inv w l w' Hmain) as Hfacts.
  rewrite (run_processed_data _ _ _ Hfacts) in Hr.
  apply list_elem_of_lookup in Hr as [i Hi].
  apply rows_for_lookup in Hi as (ip & nd & ts & _ & ->).
  unfold row_for. cbn [country_code gossip_ip is_ofac_sanctioned].
  set (c := code (resolved (geo_data l) ip)).
  assert (bool_decide (c ∈ OFAC_COUNTRIES) = true
          ↔ c ∈ ["IR"; "KP"; "CU"; "SY"; "RU"; "BY"; "VE"; "MM"]) as Hiff.
  { by rewrite bool_decide_eq_true, ofac_member. }
  split; [done|]. split; [done|]. split.
  - intros Hnone. assert (c = "XX") as Hc.
    { subst c. unfold resolved. by rewrite Hnone. }
    split; [done|]. rewrite Hc. by vm_compute.
  - intros [Hc|Hc]; rewrite Hc; by vm_compute.
Qed.

Lemma is_sanctioned_iff_ofac_member_witness :
  ∃ l w' r,
    main three_peers_world = (Ok l, w') ∧ r ∈ processed_data l
    ∧ country_code r = "RU" ∧ is_ofac_sanctioned r = true.
Proof.
  destruct (main_run three_peers_world) as (l & w' & Hmain & Hfacts).
  assert (sampled_nodes l
          = example_nodes (Some "pk1") (Some "1.18.0") (Some "pk2") None None None)
    as Hs.
  { pose proof (run_sampled_nodes _ _ _ Hfacts) as Hs.
    rewrite (run_valid_nodes _ _ _ Hfacts), (run_nodes _ _ _ Hfacts) in Hs.
    exact Hs. }
  pose proof (run_extract _ _ _ Hfacts) as Hex.
  rewrite Hs in Hex. injection Hex as Hips Hmap.
  assert (geo_data l !! "2.2.2.2" = Some (Location "RU" "Russia")) as Hgeo.
  { rewrite (run_geo_data _ _ _ Hfacts), Hips. by vm_compute. }
  pose (r := row_for (geo_data l) "2024-01-01T00:00:00" "2.2.2.2"
               (Node (Some "2.2.2.2:8001") (Some "pk2") None)).
  assert (r ∈ processed_data l) as Hr.
  { rewrite (run_processed_data _ _ _ Hfacts), Hmap. right. left. }
  destruct (is_sanctioned_iff_ofac_member three_peers_world l w' r Hmain Hr)
    as (Hcode & Hiff & _).
  assert (country_code r = "RU") as Hru.
  { rewrite Hcode. unfold resolved. cbn [gossip_ip r row_for]. by rewrite Hgeo. }
  exists l, w', r. split; [done|]. split; [done|]. split; [done|].
  apply Hiff. rewrite Hru. do 4 right. left.
Defined.

(** C2. In every run the valid peers are those of the directory
    response whose gossip address is present and not empty, and every
    sampled peer is one of them.  With [N] valid peers, the sampled peers
    are all [N] of them when [N <= 150]; when [N > 150] they are exactly
    150, taken from distinct places among the valid peers (what is left
    of the valid peers completes the sample to a rearrangement of
    them). *)
Theorem sampled_nodes_bounded (w : world) (l : main_locals) (w' : world) :
  main w = (Ok l, w') →
  valid_nodes l
    = filter (λ n, truthy (gossip n))
        (rpc_reply_nodes (rpc_endpoint w (length (http_log w))))
  ∧ Forall (λ n, ∃ c s, gossip n = Some (String c s)) (sampled_nodes l)
  ∧ (length (valid_nodes l) ≤ 150 →
       sampled_nodes l = valid_nodes l
       ∧ length (sampled_nodes l) = length (valid_nodes l))
  ∧ (150 < length (valid_nodes l) →
       length (sampled_nodes l) = 150
       ∧ ∃ rest, valid_nodes l ≡ₚ sampled_nodes l ++ rest).
Proof.
  intros Hmain. pose proof (main_inv w l w' Hmain) as Hfacts.
  pose proof (run_valid_nodes _ _ _ Hfacts) as Hvalid.
  pose proof (run_sampled_nodes _ _ _ Hfacts) as Hsampled.
  rewrite (run_nodes _ _ _ Hfacts) in Hvalid. fold SAMPLE_SIZE.
  assert (sampled_nodes l ⊆+ valid_nodes l) as Hsub.
  { destruct (decide (SAMPLE_SIZE < length (valid_nodes l))); [tauto|].
    by rewrite Hsampled. }
  split; [done|]. split; [|split].
  - apply Forall_forall. intros n Hn.
    apply (elem_of_submseteq _ _ _ Hn) in Hsub.
    rewrite Hvalid in Hsub. apply list_elem_of_filter in Hsub as [Ht _].
    destruct (gossip n) as [[|c s]|]; simpl in Ht; [done| |done]. eauto.
  - intros Hle. rewrite decide_False in Hsampled by lia. by rewrite Hsampled.
  - intros Hgt. rewrite decide_True in Hsampled by done.
    split; [tauto|]. by apply submseteq_Permutation.
Qed.

Lemma sampled_nodes_bounded_witness :
  ∃ l w',
    main crowded_world = (Ok l, w')
    ∧ length (valid_nodes l) = 151
    ∧ length (sampled_nodes l) = 150.
Proof.
  destruct (main_run crowded_world) as (l & w' & Hmain & _).
  destruct (sampled_nodes_bounded crowded_world l w' Hmain)
    as (Hvalid & _ & _ & Hbig).
  assert (length (valid_nodes l) = 151) as Hlen by (by rewrite Hvalid).
  exists l, w'. split; [done|]. split; [done|].
  apply Hbig. rewrite Hlen. lia.
Defined.

(** C3. In every run the working set has at most one entry per host.
    A host, the part of the gossip address before the first colon, is
    mapped to a peer exactly when that peer is the last of the sampled
    peers with this host.  The rows are built from the entries of the
    working set, one per entry and in their order, so a peer that lost
    its host to a later one is in no row. *)
Theorem node_map_last_wins (w : world) (l : main_locals) (w' : world) :
  main w = (Ok l, w') →
  NoDup (node_map l).*1
  ∧ (∀ nd addr,
       gossip nd = Some addr →
       (∃ rest, addr = host_of nd +:+ rest
                ∧ (rest = "" ∨ ∃ r, rest = String ":" r))
       ∧ (∀ pre post, host_of nd ≠ pre +:+ String ":" post))
  ∧ (∀ h nd, (h, nd) ∈ node_map l ↔ kept_for h (sampled_nodes l) = Some nd)
  ∧ length (processed_data l) = length (node_map l)
  ∧ (∀ i r, processed_data l !! i = Some r →
       ∃ nd, node_map l !! i = Some (gossip_ip r, nd)
             ∧ row_pubkey r = pubkey nd ∧ row_version r = version nd).
Proof.
  intros Hmain. pose proof (main_inv w l w' Hmain) as Hfacts.
  pose proof (run_extract _ _ _ Hfacts) as Hex.
  rewrite extract_ips_fold in Hex. injection Hex as _ Hmap.
  assert (NoDup (node_map l).*1) as Hnd.
  { rewrite Hmap. apply node_map_fold_NoDup, NoDup_nil_2. }
  split; [done|]. split; [|split; [|split]].
  - intros nd addr Haddr. unfold host_of. rewrite Haddr. apply split_colon_0_spec.
  - intros h nd. split.
    + intros Hin%(elem_od_get _ _ _ Hnd).
      rewrite Hmap, node_map_fold_get in Hin. simpl in Hin.
      by destruct (kept_for h (sampled_nodes l)).
    + intros Hkept. apply od_get_Some_elem.
      by rewrite Hmap, node_map_fold_get, Hkept.
  - rewrite (run_processed_data _ _ _ Hfacts). apply length_rows_for.
  - intros i r Hi. rewrite (run_processed_data _ _ _ Hfacts) in Hi.
    apply rows_for_lookup in Hi as (ip & nd & ts & Hi & ->).
    exists nd. split; [exact Hi|done].
Qed.

Lemma node_map_last_wins_witness :
  ∃ l w',
    main collision_world = (Ok l, w')
    ∧ (node_map l).*1 = ["1.1.1.1"; "2.2.2.2"]
    ∧ ("1.1.1.1", Node (Some "1.1.1.1:8002") (Some "second") None) ∈ node_map l
    ∧ length (processed_data l) = 2.
Proof.
  destruct (main_run collision_world) as (l & w' & Hmain & Hfacts).
  destruct (node_map_last_wins collision_world l w' Hmain)
    as (_ & _ & Hlast & Hlen & _).
  assert (sampled_nodes l
          = [ Node (Some "1.1.1.1:8001") (Some "first") None;
              Node (Some "2.2.2.2:8001") (Some "other") None;
              Node (Some "1.1.1.1:8002") (Some "second") None ]) as Hs.
  { pose proof (run_sampled_nodes _ _ _ Hfacts) as Hs.
    rewrite (run_valid_nodes _ _ _ Hfacts), (run_nodes _ _ _ Hfacts) in Hs.
    exact Hs. }
  pose proof (run_extract _ _ _ Hfacts) as Hex.
  rewrite Hs in Hex. injection Hex as _ Hmap.
  exists l, w'. split; [done|]. split; [by rewrite Hmap|]. split.
  - apply Hlast. by rewrite Hs.
  - by rewrite Hlen, Hmap.
Defined.

(** C4, as stated, fails: when the reply to a chunk has a good item
    before an item without ['query'], the chunk fails and yet the host
    of the good item is in the result. *)
Lemma failed_chunk_keeps_stored_hosts : ¬ failed_chunk_hosts_omitted.
Proof.
  intros Homit.
  destruct (get_ip_country_batch_run ["1.1.1.1"; "2.2.2.2"] half_reply_world)
    as (w' & Hrun & _).
  specialize (Homit _ _ _ _ 0 ["1.1.1.1"; "2.2.2.2"] "1.1.1.1" Hrun eq_refl).
  assert (store_all ∅
            (concat (reply_entries
                       <$> geo_replies half_reply_world
                             (length (http_log half_reply_world))
                             (chunks_of ["1.1.1.1"; "2.2.2.2"]))) !! "1.1.1.1"
          = Some (Location "US" "United States")) as Hkept by (by vm_compute).
  rewrite Homit in Hkept; [done| |left].
  exists (GeoItem None None None). split; [right; left|done].
Qed.

Lemma elem_of_concat {A} (x : A) (ls : list (list A)) :
  x ∈ concat ls ↔ ∃ l, x ∈ l ∧ l ∈ ls.
Proof.
  induction ls as [|l0 ls IH]; simpl.
  - split; [by intros ?%elem_of_nil|]. by intros (l & _ & ?%elem_of_nil).
  - rewrite elem_of_app, IH. split.
    + intros [?|(l & ? & ?)]; [exists l0|exists l]; split; (done || by constructor).
    + intros (l & Hx & [->|?]%elem_of_cons); [by left|right; eauto].
Qed.

Lemma concat_fmap_delete_nil {A B} (f : A → list B) (l : list A) (k : nat) (x : A) :
  l !! k = Some x → f x = [] → concat (f <$> delete k l) = concat (f <$> l).
Proof.
  intros Hk Hx. rewrite delete_take_drop.
  rewrite <- (take_drop_middle l k x Hk) at 3.
  rewrite !fmap_app, fmap_cons, !concat_app, concat_cons, Hx. done.
Qed.

(** C4, amended.  The resolver cuts the host list into chunks of at
    most 100 hosts, in order, and sends exactly one request per chunk,
    whatever the replies: nothing is sent again and no chunk is skipped.
    It always returns.  The result holds the entries stored by the
    replies, chunk after chunk: a chunk whose request or whose decoding
    raises stores nothing, so that the result is what it would be had
    the chunk not been sent; a reply with an item without ['query']
    stores the entries before that item.  A host is absent from the
    result exactly when no reply stored an entry for it, and for such a
    host the caller builds a row with the sentinel code XX and name
    Unknown, not flagged. *)
Theorem get_ip_country_batch_chunked (ips : list string) (w : world) :
  let chunks := chunks_of ips in
  let replies := geo_replies w (length (http_log w)) chunks in
  concat chunks = ips
  ∧ Forall (λ chunk, 0 < length chunk ≤ 100) chunks
  ∧ length chunks = (length ips + 99) / 100
  ∧ ∃ results w',
      get_ip_country_batch ips w = (Ok results, w')
      ∧ http_log w' = http_log w ++ (GeoRequest <$> chunks)
      ∧ results = store_all ∅ (concat (reply_entries <$> replies))
      ∧ (∀ k reply,
           replies !! k = Some reply →
           (∃ e, reply = Raise e) ∨ (∃ r e, reply = Ok r ∧ json r = Raise e) →
           results = store_all ∅ (concat (reply_entries <$> delete k replies)))
      ∧ (∀ h, results !! h = None
              ↔ ∀ reply, reply ∈ replies → h ∉ (reply_entries reply).*1)
      ∧ (∀ h nd w0,
           results !! h = None →
           (process_items [(h, nd)] results [] [] 0%Z w0).1
             = Ok ([ScanRow (isoformat (wall_clock w0 (clock_reads w0)))
                            (pubkey nd) h (version nd) "XX" "Unknown" false],
                   [("XX", 1%Z)], 0%Z)).
Proof.
  cbv zeta.
  split; [apply concat_chunks_of|]. split; [apply chunks_of_sizes|].
  split; [apply length_chunks_of|].
  destruct (get_ip_country_batch_run ips w) as (w' & Hrun & Hlog).
  eexists _, w'. split; [exact Hrun|]. split; [exact Hlog|]. split; [done|].
  set (replies := geo_replies w (length (http_log w)) (chunks_of ips)).
  split; [|split].
  - intros k reply Hk Hfail. f_equal. symmetry.
    apply (concat_fmap_delete_nil _ _ _ _ Hk).
    destruct Hfail as [[e ->]|(r & e & -> & Hjson)]; [done|].
    simpl. by rewrite Hjson.
  - intros h. split.
    + intros [_ Hnin]%store_all_lookup_None reply Hreply Hh. apply Hnin.
      apply list_elem_of_fmap in Hh as ([h' v] & -> & Hh).
      apply list_elem_of_fmap. exists (h', v). split; [done|].
      apply elem_of_concat. exists (reply_entries reply). split; [done|].
      apply list_elem_of_fmap. eauto.
    + intros Hnone. apply store_all_lookup_None. split; [apply lookup_empty|].
      intros Hin.
      apply list_elem_of_fmap in Hin as ([h' v] & -> & Hin).
      apply elem_of_concat in Hin as (es & Hin & Hes).
      apply list_elem_of_fmap in Hes as (reply & -> & Hreply).
      apply (Hnone reply Hreply). apply list_elem_of_fmap. by exists (h', v).
  - intros h nd w0 Hnone. rewrite process_items_run. cbn [fst].
    unfold rows_for. cbn [imap]. unfold row_for, resolved. cbn [fst snd].
    rewrite Hnone. cbn [default from_option id code name]. rewrite Nat.add_0_r.
    reflexivity.
Qed.

Lemma get_ip_country_batch_chunked_witness :
  ∃ results w',
    get_ip_country_batch ["9.9.9.9"] world_down = (Ok results, w')
    ∧ http_log w' = [GeoRequest ["9.9.9.9"]]
    ∧ results !! "9.9.9.9" = None
    ∧ (process_items [("9.9.9.9", Node (Some "9.9.9.9:8001") None None)]
         results [] [] 0%Z world_down).1
        = Ok ([ScanRow "T0" None "9.9.9.9" None "XX" "Unknown" false],
              [("XX", 1%Z)], 0%Z).
Proof.
  destruct (get_ip_country_batch_chunked ["9.9.9.9"] world_down)
    as (_ & _ & _ & results & w' & Hrun & Hlog & Hres & _ & _ & Hrow).
  assert (results !! "9.9.9.9" = None) as Hnone by (by rewrite Hres).
  exists results, w'. split; [done|]. split; [done|]. split; [done|].
  by rewrite (Hrow _ (Node (Some "9.9.9.9:8001") None None) world_down Hnone).
Defined.

(** C6. The division that computes the percentage is guarded: for any
    counts the computation returns a number and never raises, and the
    whole run returns.  When the run has no rows, the percentage is the
    integer 0, the summary shows it as 0.00, and that summary is what
    the summary file holds. *)
Theorem zero_rows_zero_percentage (w : world) :
  (∀ sc total, ∃ v, compute_non_compliance_pct sc total = Ok v)
  ∧ ∃ l w',
      main w = (Ok l, w')
      ∧ summary_file w' = Some (join_lines (summary_lines l))
      ∧ (processed_data l = [] →
           non_compliance_pct l = PyInt 0
           ∧ summary_lines l !! 5 = Some "Non-Compliance Percentage: 0.00%").
Proof.
  split.
  { intros sc total.
    destruct (compute_non_compliance_pct_ok sc total) as (v & Hv & _). eauto. }
  destruct (main_run w) as (l & w' & Hmain & Hfacts).
  exists l, w'. split; [done|]. split; [apply (run_summary_file _ _ _ Hfacts)|].
  intros Hrows.
  pose proof (run_non_compliance_pct _ _ _ Hfacts) as Hpct.
  rewrite (run_total_fetched _ _ _ Hfacts), Hrows in Hpct.
  simpl in Hpct. injection Hpct as Hpct.
  split; [done|].
  rewrite (run_summary_lines _ _ _ Hfacts), <- Hpct. done.
Qed.

Lemma zero_rows_zero_percentage_witness :
  ∃ l w',
    main world_down = (Ok l, w')
    ∧ processed_data l = []
    ∧ non_compliance_pct l = PyInt 0
    ∧ summary_lines l !! 5 = Some "Non-Compliance Percentage: 0.00%".
Proof.
  destruct (zero_rows_zero_percentage world_down)
    as (_ & l & w' & Hmain & _ & Hzero).
  pose proof (main_inv _ _ _ Hmain) as Hfacts.
  assert (sampled_nodes l = []) as Hs.
  { pose proof (run_sampled_nodes _ _ _ Hfacts) as Hs.
    rewrite (run_valid_nodes _ _ _ Hfacts), (run_nodes _ _ _ Hfacts) in Hs.
    exact Hs. }
  pose proof (run_extract _ _ _ Hfacts) as Hex.
  rewrite Hs in Hex. injection Hex as _ Hmap.
  assert (processed_data l = []) as Hrows.
  { by rewrite (run_processed_data _ _ _ Hfacts), Hmap. }
  exists l, w'. split; [done|]. split; [done|]. by apply Hzero.
Defined.

(** The header of the log is none of its data rows: the last field of
    a data row is [True] or [False]. *)
Lemma fieldnames_not_a_row (rows : list scan_row) :
  fieldnames ∉ row_to_record <$> rows.
Proof.
  intros (r & Hr & _)%list_elem_of_fmap.
  unfold fieldnames, row_to_record in Hr.
  by destruct (is_ofac_sanctioned r).
Qed.

(** C7. A run appends to the log: what the file held stays in front,
    as it was, and the run adds one record of seven fields per row, in
    the order of the columns of the header.  The header is written
    exactly when the file did not exist.  After two runs in a row that
    start without a file, the log is the header followed by the rows of
    the first run and then those of the second: the header is there
    once, and the data rows number the rows of both runs. *)
Theorem csv_log_is_cumulative (w : world) (l1 : main_locals) (w1 : world)
    (l2 : main_locals) (w2 : world) :
  main w = (Ok l1, w1) → main w1 = (Ok l2, w2) →
  let rows1 := row_to_record <$> processed_data l1 in
  let rows2 := row_to_record <$> processed_data l2 in
  (∀ r, row_to_record r
        = [timestamp r; csv_opt (row_pubkey r); gossip_ip r;
           csv_opt (row_version r); country_code r; country_name r;
           csv_bool (is_ofac_sanctioned r)])
  ∧ length fieldnames = 7
  ∧ (∀ content, csv_file w = Some content →
       csv_file w1 = Some (content ++ rows1)
       ∧ csv_file w2 = Some (content ++ rows1 ++ rows2))
  ∧ (csv_file w = None →
       csv_file w1 = Some (fieldnames :: rows1)
       ∧ csv_file w2 = Some (fieldnames :: rows1 ++ rows2)
       ∧ (fieldnames ∉ rows1 ++ rows2)
       ∧ length (rows1 ++ rows2)
           = length (processed_data l1) + length (processed_data l2)).
Proof.
  intros Hmain1 Hmain2 rows1 rows2.
  pose proof (run_csv_file _ _ _ (main_inv _ _ _ Hmain1)) as Hcsv1.
  pose proof (run_csv_file _ _ _ (main_inv _ _ _ Hmain2)) as Hcsv2.
  fold rows1 in Hcsv1. fold rows2 in Hcsv2.
  rewrite Hcsv1 in Hcsv2. unfold log_before in Hcsv2. cbn [default from_option id] in Hcsv2.
  rewrite <- app_assoc in Hcsv2.
  split; [done|]. split; [done|]. split.
  - intros content Hw. rewrite Hw in Hcsv1, Hcsv2. done.
  - intros Hw. rewrite Hw in Hcsv1, Hcsv2. split; [done|]. split; [done|]. split.
    + subst rows1 rows2. rewrite <- fmap_app. apply fieldnames_not_a_row.
    + subst rows1 rows2. by rewrite length_app, !length_fmap.
Qed.

Lemma csv_log_is_cumulative_witness :
  ∃ l1 w1 l2 w2,
    main three_peers_world = (Ok l1, w1) ∧ main w1 = (Ok l2, w2)
    ∧ csv_file w2
        = Some (fieldnames :: ((row_to_record <$> processed_data l1)
                                 ++ (row_to_record <$> processed_data l2))).
Proof.
  destruct (main_run three_peers_world) as (l1 & w1 & Hmain1 & _).
  destruct (main_run w1) as (l2 & w2 & Hmain2 & _).
  destruct (csv_log_is_cumulative three_peers_world l1 w1 l2 w2 Hmain1 Hmain2)
    as (_ & _ & _ & Hfresh).
  exists l1, w1, l2, w2. split; [done|]. split; [done|].
  by destruct (Hfresh eq_refl) as (_ & Hlog & _).
Defined.

(** C10. In every run the counts of the tally add up to the number of
    rows, so that the [Other] line of the summary, the number of rows
    minus that sum, shows 0. *)
Theorem tally_sums_to_total (w : world) (l : main_locals) (w' : world) :
  main w = (Ok l, w') →
  sum_values (country_counter l) = Z.of_nat (length (processed_data l))
  ∧ (total_fetched l - sum_values (country_counter l))%Z = 0%Z
  ∧ summary_lines l !! 13 = Some "  Other: 0".
Proof.
  intros Hmain. pose proof (main_inv _ _ _ Hmain) as Hfacts.
  assert (sum_values (country_counter l) = Z.of_nat (length (processed_data l)))
    as Hsum.
  { rewrite (run_country_counter _ _ _ Hfacts), tally_sum. by rewrite length_fmap. }
  assert ((total_fetched l - sum_values (country_counter l))%Z = 0%Z) as Hother.
  { rewrite Hsum, (run_total_fetched _ _ _ Hfacts). lia. }
  split; [done|]. split; [done|].
  rewrite (run_summary_lines _ _ _ Hfacts). cbn [build_summary_lines app lookup list_lookup].
  by rewrite Hother.
Qed.

Lemma tally_sums_to_total_witness :
  ∃ l w',
    main three_peers_world = (Ok l, w')
    ∧ sum_values (country_counter l) = Z.of_nat (length (processed_data l))
    ∧ summary_lines l !! 13 = Some "  Other: 0".
Proof.
  destruct (main_run three_peers_world) as (l & w' & Hmain & _).
  destruct (tally_sums_to_total three_peers_world l w' Hmain) as (Hsum & _ & Hline).
  by exists l, w'.
Defined.

Lemma filter_sublist_mono {A} (P : A → Prop) `{!∀ x, Decision (P x)} (l1 l2 : list A) :
  l1 `sublist_of` l2 → filter P l1 `sublist_of` filter P l2.
Proof.
  induction 1 as [|x l1 l2 _ IH|x l1 l2 _ IH]; [done| |].
  - rewrite !filter_cons. case_decide; [by apply sublist_skip|done].
  - rewrite filter_cons. case_decide; [by apply sublist_cons|done].
Qed.

(** C8. The breakdown section of the summary, the lines after the
    first sixteen, has one line per item of [most_common], which lists
    every country code of the rows exactly once, with the number of rows
    that have it, by descending count; of two codes with the same count,
    the one listed first is the one that the rows show first. *)
Theorem breakdown_by_descending_count (w : world) (l : main_locals) (w' : world) :
  main w = (Ok l, w') →
  let codes := country_code <$> processed_data l in
  let breakdown := most_common (country_counter l) in
  drop 16 (summary_lines l)
    = (λ item : string * Z, "  " +:+ item.1 +:+ ": " +:+ pretty item.2) <$> breakdown
  ∧ NoDup breakdown.*1
  ∧ (∀ k, k ∈ breakdown.*1 ↔ k ∈ codes)
  ∧ (∀ k n, (k, n) ∈ breakdown → n = Z.of_nat (occurrences k codes))
  ∧ StronglySorted count_ge breakdown
  ∧ (∀ a b n,
       [(a, n); (b, n)] `sublist_of` breakdown →
       first_pos a codes < first_pos b codes).
Proof.
  intros Hmain codes breakdown.
  pose proof (main_inv _ _ _ Hmain) as Hfacts.
  pose proof (run_country_counter _ _ _ Hfacts) as Hcounter. fold codes in Hcounter.
  assert (breakdown ≡ₚ tally codes) as Hperm.
  { subst breakdown. rewrite Hcounter. apply sorted_by_count_desc_perm. }
  split; [by rewrite (run_summary_lines _ _ _ Hfacts)|].
  split; [rewrite Hperm; apply tally_NoDup|].
  split; [intros k; rewrite Hperm; apply tally_keys_elem|].
  split; [intros k n; rewrite Hperm; apply tally_elem|].
  split; [apply sorted_by_count_desc_sorted|].
  intros a b n Hsub. apply tally_order.
  apply (filter_sublist_mono (λ p : string * Z, p.2 = n)) in Hsub.
  rewrite !filter_cons, filter_nil, !decide_True in Hsub by done.
  subst breakdown. unfold most_common in Hsub.
  rewrite sorted_by_count_desc_stable, Hcounter in Hsub.
  change [a; b] with ([(a, n); (b, n)].*1).
  apply fmap_sublist. etrans; [exact Hsub|]. apply sublist_filter.
Qed.

Lemma breakdown_by_descending_count_witness :
  ∃ l w',
    main ties_world = (Ok l, w')
    ∧ drop 16 (summary_lines l) = ["  DE: 2"; "  US: 1"; "  RU: 1"].
Proof.
  destruct (main_run ties_world) as (l & w' & Hmain & Hfacts).
  destruct (breakdown_by_descending_count ties_world l w' Hmain) as (Hlines & _).
  exists l, w'. split; [done|]. rewrite Hlines.
  assert (sampled_nodes l
          = [ Node (Some "1.1.1.1:8001") None None;
              Node (Some "2.2.2.2:8001") None None;
              Node (Some "3.3.3.3:8001") None None;
              Node (Some "4.4.4.4:8001") None None ]) as Hs.
  { pose proof (run_sampled_nodes _ _ _ Hfacts) as Hs.
    rewrite (run_valid_nodes _ _ _ Hfacts), (run_nodes _ _ _ Hfacts) in Hs.
    exact Hs. }
  pose proof (run_extract _ _ _ Hfacts) as Hex.
  rewrite Hs in Hex. injection Hex as Hips Hmap.
  rewrite (run_country_counter _ _ _ Hfacts), (run_processed_data _ _ _ Hfacts).
  rewrite (run_geo_data _ _ _ Hfacts), Hips, Hmap.
  by vm_compute.
Defined.

(** C9. When the directory returns three peers with the gossip
    addresses 1.1.1.1:8001, 2.2.2.2:8001 and 3.3.3.3:8001 and the
    geolocation service resolves their hosts to US, to RU, and, for want
    of a country code in its reply, to Unknown, the run has three rows
    with these codes, of which only the second is flagged, the tally
    counts each of US, RU and Unknown once, one peer is sanctioned, and
    the percentage is a third of a hundred, shown as 33.33. *)
Theorem three_peers_example (pk1 v1 pk2 v2 pk3 v3 name1 name2 : option string)
    (rnd : nat → nat → nat) (clock : nat → datetime)
    (csv : option (list csv_record)) (summary : option string)
    (out : list string) :
  ∃ l w',
    main (example_world pk1 v1 pk2 v2 pk3 v3 name1 name2 rnd clock csv summary out)
      = (Ok l, w')
    ∧ ((λ r, (gossip_ip r, country_code r, is_ofac_sanctioned r)) <$> processed_data l)
        = [("1.1.1.1", "US", false); ("2.2.2.2", "RU", true);
           ("3.3.3.3", "Unknown", false)]
    ∧ length (processed_data l) = 3
    ∧ country_counter l = [("US", 1%Z); ("RU", 1%Z); ("Unknown", 1%Z)]
    ∧ sanctioned_count l = 1%Z
    ∧ non_compliance_pct l
        = PyFloat (PrimFloat.mul (PrimFloat.div (float_of_int 1) (float_of_int 3))
                                 (float_of_int 100))
    ∧ format_2f (non_compliance_pct l) = "33.33"
    ∧ summary_lines l !! 5 = Some "Non-Compliance Percentage: 33.33%".
Proof.
  destruct csv as [content|];
    (eexists _, _; split; [vm_compute; reflexivity|]; by vm_compute).
Qed.


(** * Further properties of the script *)

(** ** What the network functions print and leave behind *)

Lemma with_stdout_nil (w : world) : with_stdout w (stdout w ++ []) = w.
Proof. destruct w. unfold with_stdout. simpl. by rewrite app_nil_r. Qed.

(** The world that [get_gossip_nodes] leaves: one more request in the
    log and, when the [try] block raised, one more line printed. *)
Lemma get_gossip_nodes_world (w : world) :
  (get_gossip_nodes w).2
    = with_stdout (with_http_log w (http_log w ++ [RpcRequest]))
        (stdout w ++ rpc_error_line (rpc_endpoint w (length (http_log w)))).
Proof.
  unfold get_gossip_nodes, try_except, requests_post_rpc, raise_for_status,
    response_json, lift_result, raise, print, rpc_error_line, rpc_error.
  rewrite !run_bind. simpl.
  destruct (rpc_endpoint w (length (http_log w))) as [[[e|] [[[r|]]|e']]|e];
    simpl; try done;
    by rewrite <- (with_stdout_nil (with_http_log w _)) at 1.
Qed.

Lemma store_items_ended data results :
  (store_items data results).2 = from_option Raise (Ok tt) (data_error data).
Proof.
  revert results. induction data as [|item data IH]; intros results; [done|].
  simpl. by destruct (query item).
Qed.

(** The world that one iteration over the chunks leaves. *)
Lemma geolocate_chunk_world ips results i w :
  let chunk := slice ips i (i + 100) in
  (geolocate_chunk ips results i w).2
    = with_stdout (with_http_log w (http_log w ++ [GeoRequest chunk]))
        (stdout w ++ chunk_error_line i (geo_endpoint w (length (http_log w)) chunk)).
Proof.
  intros chunk. unfold geolocate_chunk, try_except_inplace. fold chunk.
  rewrite run_bind. unfold requests_post_geo at 1. cbv beta iota.
  unfold chunk_error_line, chunk_error.
  destruct (geo_endpoint w (length (http_log w)) chunk) as [[st [data|e]]|e];
    simpl; try done.
  pose proof (store_items_ended data results) as Hend.
  destruct (store_items data results) as [results' ended]. simpl in Hend.
  subst ended. destruct (data_error data) as [e|]; simpl; [done|].
  by rewrite <- (with_stdout_nil (with_http_log w _)) at 1.
Qed.

Lemma for_chunks_world ips (starts : list nat) :
  ∀ results w,
    let chunks := (λ i, slice ips i (i + 100)) <$> starts in
    (for_chunks ips starts results w).2
      = with_stdout (with_http_log w (http_log w ++ (GeoRequest <$> chunks)))
          (stdout w
             ++ chunk_error_lines starts (geo_replies w (length (http_log w)) chunks)).
Proof.
  induction starts as [|i starts IH]; intros results w chunks.
  - subst chunks. simpl. rewrite app_nil_r.
    destruct w. unfold with_stdout, with_http_log. simpl. by rewrite !app_nil_r.
  - cbn [for_chunks]. rewrite run_bind.
    pose proof (geolocate_chunk_world ips results i w) as Hw1.
    destruct (geolocate_chunk_run ips results i w) as (w1 & Hrun1 & _).
    rewrite Hrun1 in Hw1 |- *. cbn [snd] in Hw1. cbv zeta in Hw1.
    rewrite (IH _ w1). subst chunks w1.
    cbn [http_log stdout geo_endpoint with_stdout with_http_log].
    unfold chunk_error_lines, geo_replies.
    rewrite !fmap_cons, imap_cons. cbn [zip_with concat]. rewrite Nat.add_0_r.
    rewrite <- !app_assoc. cbn [app].
    unfold with_stdout, with_http_log. simpl. do 3 f_equal.
    f_equal. f_equal. apply imap_ext. intros k c _. simpl.
    rewrite length_app. simpl. f_equal. lia.
Qed.

(** X1. [get_gossip_nodes] returns the list under ['result'] when the
    request succeeds, the status is good and the body decodes to an
    object with that key, and prints nothing then.  A body without
    ['result'] gives the empty list, and nothing is printed either.
    When the request, the status check or the decoding raises, the
    function returns the empty list and prints exactly one line, which
    carries the text of the exception. *)
Theorem get_gossip_nodes_outcome (w : world) :
  let reply := rpc_endpoint w (length (http_log w)) in
  let out := get_gossip_nodes w in
  out.1 = Ok (rpc_reply_nodes reply)
  ∧ stdout out.2 = stdout w ++ rpc_error_line reply
  ∧ (∀ nodes, reply = Ok (Response None (Ok (RpcBody (Some nodes)))) →
       out.1 = Ok nodes ∧ stdout out.2 = stdout w)
  ∧ (reply = Ok (Response None (Ok (RpcBody None))) →
       out.1 = Ok [] ∧ stdout out.2 = stdout w)
  ∧ (∀ e, rpc_error reply = Some e →
       out.1 = Ok []
       ∧ stdout out.2 = stdout w ++ ["Error fetching cluster nodes: " +:+ exn_msg e]).
Proof.
  cbv zeta. rewrite get_gossip_nodes_world.
  destruct (get_gossip_nodes_run w) as (w' & -> & _).
  cbn [fst stdout with_stdout].
  set (reply := rpc_endpoint w (length (http_log w))).
  split; [done|]. split; [done|]. split; [|split].
  - intros nodes ->. by rewrite app_nil_r.
  - intros ->. by rewrite app_nil_r.
  - intros e He. unfold rpc_error_line. rewrite He. split; [|done].
    f_equal. unfold rpc_error in He.
    destruct reply as [[[e0|] [[[r|]]|e']]|e0]; simpl in *; by simplify_eq.
Qed.

Lemma length_chunk_error_lines (starts : list nat) :
  ∀ replies,
    length starts = length replies →
    length (chunk_error_lines starts replies)
      = length (filter (λ reply, is_Some (chunk_error reply)) replies).
Proof.
  unfold chunk_error_lines.
  induction starts as [|i starts IH]; intros [|reply replies] Hlen;
    simplify_eq/=; [done|].
  rewrite length_app, (IH replies) by done. rewrite filter_cons.
  unfold chunk_error_line. destruct (chunk_error reply) as [e|].
  - by rewrite decide_True by eauto.
  - by rewrite decide_False by (by intros [? ?]).
Qed.

Lemma chunk_failed_error reply : chunk_failed reply ↔ is_Some (chunk_error reply).
Proof.
  unfold chunk_failed, chunk_error.
  destruct reply as [[st [data|e]]|e]; simpl; [|by eauto|by eauto].
  induction data as [|item data IH]; simpl.
  - split; [by intros (? & ?%elem_of_nil & _)|by intros [? ?]].
  - destruct (query item) as [q|] eqn:Hq.
    + rewrite <- IH. split.
      * intros (item' & [->|Hin]%elem_of_cons & Hnone); [congruence|eauto].
      * intros (item' & Hin & Hnone). exists item'. split; [by right|done].
    + split; [eauto|]. intros _. exists item. split; [left|done].
Qed.

(** X2. [get_ip_country_batch] prints one line for each chunk whose
    [try] block raises, in the order of the chunks, and nothing else:
    the line names the offset at which the chunk starts, a multiple of
    a hundred, and the text of the exception.  A chunk fails exactly
    when it has such a line, so the lines number the failed chunks. *)
Theorem get_ip_country_batch_logs_failures (ips : list string) (w : world) :
  let chunks := chunks_of ips in
  let replies := geo_replies w (length (http_log w)) chunks in
  let starts := range3 0 (length ips) 100 in
  stdout (get_ip_country_batch ips w).2
    = stdout w ++ chunk_error_lines starts replies
  ∧ starts = (λ k, k * 100) <$> seq 0 (length chunks)
  ∧ length (chunk_error_lines starts replies)
      = length (filter (λ reply, is_Some (chunk_error reply)) replies)
  ∧ (∀ reply, chunk_failed reply ↔ is_Some (chunk_error reply))
  ∧ (∀ k reply e,
       replies !! k = Some reply → chunk_error reply = Some e →
       ("Error geolocating chunk " +:+ pretty (k * 100) +:+ ": " +:+ exn_msg e)
         ∈ chunk_error_lines starts replies).
Proof.
  cbv zeta. unfold get_ip_country_batch. rewrite for_chunks_world.
  cbn [stdout with_stdout]. fold (chunks_of ips).
  set (replies := geo_replies w (length (http_log w)) (chunks_of ips)).
  assert (range3 0 (length ips) 100
          = (λ k, k * 100) <$> seq 0 (length (chunks_of ips))) as Hstarts.
  { unfold chunks_of, range3. rewrite length_fmap, length_fmap, length_seq.
    by apply list_fmap_ext. }
  assert (length (range3 0 (length ips) 100) = length replies) as Hlen.
  { subst replies. unfold geo_replies, chunks_of. by rewrite length_imap, length_fmap. }
  split; [done|]. split; [done|].
  split; [by apply length_chunk_error_lines|].
  split; [apply chunk_failed_error|].
  intros k reply e Hk He. unfold chunk_error_lines. apply elem_of_concat.
  exists (chunk_error_line (k * 100) reply). split.
  - unfold chunk_error_line. rewrite He. left.
  - apply list_elem_of_lookup. exists k. rewrite lookup_zip_with, Hstarts.
    rewrite list_lookup_fmap, lookup_seq_lt; [by rewrite Hk|].
    apply lookup_lt_Some in Hk. by rewrite <- Hlen, Hstarts, length_fmap, length_seq in Hk.
Qed.

Lemma store_all_lookup results es h :
  store_all results es !! h
    = from_option (λ e, Some e.2) (results !! h) (last (filter (λ e, e.1 = h) es)).
Proof.
  induction es as [|[k v] es IH] using rev_ind; [done|].
  rewrite store_all_app, filter_app, filter_cons, filter_nil. cbn [store_all foldl fst snd].
  destruct (decide (k = h)) as [->|Hne].
  - rewrite lookup_insert_eq. by rewrite last_snoc.
  - rewrite lookup_insert_ne by done. by rewrite app_nil_r.
Qed.

Lemma stored_entries_elem data q loc :
  (q, loc) ∈ stored_entries data →
  ∃ item, item ∈ data ∧ query item = Some q
          ∧ loc = Location (default "Unknown" (countryCode item))
                           (default "Unknown" (country item)).
Proof.
  induction data as [|item data IH]; simpl; [by intros ?%elem_of_nil|].
  destruct (query item) as [q'|] eqn:Hq; [|by intros ?%elem_of_nil].
  intros [[= -> ->]|Hin]%elem_of_cons.
  - exists item. split; [left|done].
  - destruct (IH Hin) as (item' & ? & ? & ?). exists item'. split; [by right|done].
Qed.

(** X3. In the result of [get_ip_country_batch] the last entry stored
    for a host is the one that stays: a later reply item with the same
    ['query'] replaces what an earlier one stored.  An entry is keyed by
    the ['query'] of a reply item, whatever hosts were asked for, and
    holds that item's country code and name, each replaced by Unknown
    when the item does not have it. *)
Theorem get_ip_country_batch_last_entry_wins (ips : list string) (w : world) :
  let replies := geo_replies w (length (http_log w)) (chunks_of ips) in
  let entries := concat (reply_entries <$> replies) in
  ∃ results w',
    get_ip_country_batch ips w = (Ok results, w')
    ∧ (∀ h, results !! h = snd <$> last (filter (λ e, e.1 = h) entries))
    ∧ (∀ h loc,
         results !! h = Some loc →
         ∃ st data item,
           Ok (Response st (Ok data)) ∈ replies ∧ item ∈ data
           ∧ query item = Some h
           ∧ loc = Location (default "Unknown" (countryCode item))
                            (default "Unknown" (country item))).
Proof.
  cbv zeta.
  destruct (get_ip_country_batch_run ips w) as (w' & Hrun & _).
  eexists _, w'. split; [exact Hrun|].
  set (replies := geo_replies w (length (http_log w)) (chunks_of ips)).
  assert (∀ h, store_all ∅ (concat (reply_entries <$> replies)) !! h
               = snd <$> last (filter (λ e, e.1 = h) (concat (reply_entries <$> replies))))
    as Hlast.
  { intros h. rewrite store_all_lookup, lookup_empty.
    by destruct (last _). }
  split; [done|].
  intros h loc Hloc. rewrite Hlast in Hloc.
  destruct (last _) as [[h' loc']|] eqn:Hl; simplify_eq/=.
  apply last_Some_elem_of, list_elem_of_filter in Hl as [Hh Hin]. simpl in Hh. subst h'.
  apply elem_of_concat in Hin as (es & Hin & Hes).
  apply list_elem_of_fmap in Hes as (reply & -> & Hreply).
  destruct reply as [[st [data|e]]|e]; simpl in Hin;
    [|by apply elem_of_nil in Hin|by apply elem_of_nil in Hin].
  destruct (stored_entries_elem _ _ _ Hin) as (item & ? & ? & ?).
  by exists st, data, item.
Qed.

(** X4. Neither network function touches the log file, the summary
    file, the clock or the random generator; [get_gossip_nodes] adds
    its one request to the request log and [get_ip_country_batch] one
    request per chunk.  On an empty host list the resolver sends
    nothing, prints nothing and returns an empty dictionary. *)
Theorem network_functions_frame (ips : list string) (w : world) :
  let w1 := (get_gossip_nodes w).2 in
  let w2 := (get_ip_country_batch ips w).2 in
  (csv_file w1 = csv_file w ∧ summary_file w1 = summary_file w
   ∧ clock_reads w1 = clock_reads w ∧ rand_calls w1 = rand_calls w
   ∧ http_log w1 = http_log w ++ [RpcRequest])
  ∧ (csv_file w2 = csv_file w ∧ summary_file w2 = summary_file w
     ∧ clock_reads w2 = clock_reads w ∧ rand_calls w2 = rand_calls w
     ∧ http_log w2 = http_log w ++ (GeoRequest <$> chunks_of ips))
  ∧ get_ip_country_batch [] w = (Ok ∅, w).
Proof.
  cbv zeta. rewrite get_gossip_nodes_world.
  unfold get_ip_country_batch at 1 2 3 4 5. rewrite for_chunks_world.
  split; [done|]. split; [done|].
  destruct (get_ip_country_batch_run [] w) as (w' & Hrun & _).
  pose proof (for_chunks_world [] (range3 0 0 100) ∅ w) as Hw.
  unfold get_ip_country_batch in Hrun. simpl length in Hrun.
  rewrite Hrun in Hw. simpl in Hw. rewrite !app_nil_r in Hw.
  unfold get_ip_country_batch. simpl length. rewrite Hrun, Hw.
  destruct w. reflexivity.
Qed.

Lemma rows_for_gossip_ip geo w items :
  gossip_ip <$> rows_for geo w items = items.*1.
Proof.
  apply list_eq. intros i. unfold rows_for.
  rewrite !list_lookup_fmap, list_lookup_imap.
  by destruct (items !! i) as [[ip nd]|].
Qed.

Lemma rows_for_timestamp geo w items :
  timestamp <$> rows_for geo w items
    = (λ n, isoformat (wall_clock w (clock_reads w + n))) <$> seq 0 (length items).
Proof.
  apply list_eq. intros i. unfold rows_for.
  rewrite !list_lookup_fmap, list_lookup_imap.
  destruct (items !! i) as [[ip nd]|] eqn:Hi; simpl.
  - rewrite lookup_seq_lt by (by apply lookup_lt_Some in Hi). done.
  - rewrite lookup_seq_ge by (by apply lookup_ge_None in Hi). done.
Qed.

(** The keys of the working set are those of a tally of the hosts. *)
Lemma node_map_keys_tally (sampled : list node) :
  ∀ (m : odict node) (c : odict Z),
    m.*1 = c.*1 →
    (foldl node_map_step m sampled).*1
      = (tally_from c (host_of <$> filter (λ nd, truthy (gossip nd)) sampled)).*1.
Proof.
  induction sampled as [|nd sampled IH]; intros m c Hmc; [done|].
  cbn [foldl]. rewrite filter_cons. unfold node_map_step at 2.
  destruct (truthy (gossip nd)) eqn:Ht.
  - rewrite decide_True by done. rewrite fmap_cons. cbn [tally_from foldl].
    apply IH. unfold counter_incr. by rewrite !od_set_keys, Hmc.
  - rewrite decide_False by (by intros []). by apply IH.
Qed.

Lemma sampled_all_truthy w l w' :
  run_facts w l w' → Forall (λ nd, truthy (gossip nd)) (sampled_nodes l).
Proof.
  intros Hfacts.
  pose proof (run_sampled_nodes _ _ _ Hfacts) as Hsampled.
  pose proof (run_valid_nodes _ _ _ Hfacts) as Hvalid.
  assert (sampled_nodes l ⊆+ valid_nodes l) as Hsub.
  { destruct (decide (SAMPLE_SIZE < length (valid_nodes l))); [tauto|].
    by rewrite Hsampled. }
  apply Forall_forall. intros nd Hnd.
  apply (elem_of_submseteq _ _ _ Hnd) in Hsub.
  rewrite Hvalid in Hsub. by apply list_elem_of_filter in Hsub as [Ht _].
Qed.

Lemma sampled_at_most_150 w l w' :
  run_facts w l w' → length (sampled_nodes l) ≤ 150.
Proof.
  intros Hfacts. pose proof (run_sampled_nodes _ _ _ Hfacts) as Hsampled.
  unfold SAMPLE_SIZE in Hsampled.
  destruct (decide (150 < length (valid_nodes l))); [lia|].
  rewrite Hsampled. lia.
Qed.

Lemma filter_all {A} (P : A → Prop) `{!∀ x, Decision (P x)} (l : list A) :
  Forall P l → filter P l = l.
Proof.
  induction 1 as [|x l Hx _ IH]; [done|].
  by rewrite filter_cons, decide_True, IH by done.
Qed.

(** The host list and the working set of a run. *)
Lemma run_hosts w l w' :
  run_facts w l w' →
  ip_list l = host_of <$> sampled_nodes l
  ∧ (node_map l).*1 = (tally (ip_list l)).*1.
Proof.
  intros Hfacts. pose proof (run_extract _ _ _ Hfacts) as Hex.
  rewrite extract_ips_fold in Hex. injection Hex as Hips Hmap.
  rewrite (filter_all _ _ (sampled_all_truthy _ _ _ Hfacts)) in Hips.
  split; [done|].
  rewrite Hmap, (node_map_keys_tally _ [] []) by done.
  by rewrite (filter_all _ _ (sampled_all_truthy _ _ _ Hfacts)), Hips.
Qed.

(** X5. The extraction loop skips no sampled peer: the host list has
    the host of every sampled peer, repeats included.  The working set
    has each of these hosts once, at the place of the first peer that
    has it (while C3 gives it the data of the last one), and the rows
    come in that order. *)
Theorem node_map_first_place (w : world) :
  ∃ l w',
    main w = (Ok l, w')
    ∧ ip_list l = host_of <$> sampled_nodes l
    ∧ (∀ h, h ∈ (node_map l).*1 ↔ h ∈ ip_list l)
    ∧ (∀ a b, [a; b] `sublist_of` (node_map l).*1 →
              first_pos a (ip_list l) < first_pos b (ip_list l))
    ∧ gossip_ip <$> processed_data l = (node_map l).*1.
Proof.
  destruct (main_run w) as (l & w' & Hmain & Hfacts).
  destruct (run_hosts _ _ _ Hfacts) as [Hips Hkeys].
  exists l, w'. split; [done|]. split; [done|]. rewrite Hkeys. split; [|split].
  - intros h. apply tally_keys_elem.
  - intros a b. apply tally_order.
  - rewrite (run_processed_data _ _ _ Hfacts), rows_for_gossip_ip. done.
Qed.

(** X6. A run has at most 150 sampled peers and at most as many rows
    as sampled peers; the number of sanctioned peers lies between zero
    and the number of rows. *)
Theorem run_sizes_bounded (w : world) :
  ∃ l w',
    main w = (Ok l, w')
    ∧ length (sampled_nodes l) ≤ 150
    ∧ length (ip_list l) = length (sampled_nodes l)
    ∧ length (processed_data l) = length (node_map l)
    ∧ length (node_map l) ≤ length (sampled_nodes l)
    ∧ (0 ≤ sanctioned_count l ≤ total_fetched l)%Z
    ∧ (total_fetched l ≤ 150)%Z.
Proof.
  destruct (main_run w) as (l & w' & Hmain & Hfacts).
  destruct (run_hosts _ _ _ Hfacts) as [Hips Hkeys].
  pose proof (sampled_at_most_150 _ _ _ Hfacts) as H150.
  assert (length (ip_list l) = length (sampled_nodes l)) as Hlen
    by (by rewrite Hips, length_fmap).
  assert (length (processed_data l) = length (node_map l)) as Hrows
    by (rewrite (run_processed_data _ _ _ Hfacts); apply length_rows_for).
  assert (length (node_map l) ≤ length (sampled_nodes l)) as Hmap.
  { rewrite <- Hlen, <- (length_fmap fst (node_map l)), Hkeys.
    apply submseteq_length, NoDup_submseteq; [apply tally_NoDup|].
    intros h. apply tally_keys_elem. }
  exists l, w'. repeat split; try done.
  - rewrite (run_sanctioned_count _ _ _ Hfacts). unfold count_sanctioned. lia.
  - rewrite (run_sanctioned_count _ _ _ Hfacts), (run_total_fetched _ _ _ Hfacts).
    unfold count_sanctioned. apply inj_le, length_filter.
  - rewrite (run_total_fetched _ _ _ Hfacts). lia.
Qed.

(** X7. A run sends one request to the directory and then one request
    per chunk of its host list, in order and nothing else: at most two
    geolocation requests, which together carry each host of the list
    once per sampled peer that has it, and none at all when no peer was
    sampled. *)
Theorem run_requests (w : world) :
  ∃ l w',
    main w = (Ok l, w')
    ∧ http_log w'
        = http_log w ++ RpcRequest :: (GeoRequest <$> chunks_of (ip_list l))
    ∧ concat (chunks_of (ip_list l)) = host_of <$> sampled_nodes l
    ∧ length (chunks_of (ip_list l)) ≤ 2
    ∧ (sampled_nodes l = [] → http_log w' = http_log w ++ [RpcRequest]).
Proof.
  destruct (main_run w) as (l & w' & Hmain & Hfacts).
  destruct (run_hosts _ _ _ Hfacts) as [Hips _].
  pose proof (sampled_at_most_150 _ _ _ Hfacts) as H150.
  pose proof (run_http_log _ _ _ Hfacts) as Hlog.
  exists l, w'. split; [done|]. split; [done|]. split; [|split].
  - by rewrite concat_chunks_of.
  - rewrite length_chunks_of, Hips, length_fmap.
    pose proof (Nat.div_mod_eq (length (sampled_nodes l) + 99) 100) as Hdiv.
    pose proof (Nat.mod_upper_bound (length (sampled_nodes l) + 99) 100). lia.
  - intros Hnil. rewrite Hlog, Hips, Hnil. done.
Qed.

Lemma filter_none {A} (P : A → Prop) `{!∀ x, Decision (P x)} (l : list A) :
  Forall (λ x, ¬ P x) l → filter P l = [].
Proof.
  induction 1 as [|x l Hx _ IH]; [done|].
  by rewrite filter_cons, decide_False, IH by done.
Qed.

Lemma occurrences_filter_cons (k : string) (ks codes : list string) :
  k ∉ ks →
  length (filter (λ c, c ∈ k :: ks) codes)
    = occurrences k codes + length (filter (λ c, c ∈ ks) codes).
Proof.
  intros Hk. unfold occurrences.
  induction codes as [|c codes IH]; [done|].
  rewrite !filter_cons. destruct (decide (c = k)) as [->|Hne].
  - rewrite decide_True by left. rewrite (decide_False (P := k ∈ ks)) by done.
    simpl. by rewrite IH.
  - destruct (decide (c ∈ ks)) as [Hin|Hnin].
    + rewrite decide_True by (by right). simpl. rewrite IH. lia.
    + rewrite decide_False; [done|]. by intros [?|?]%elem_of_cons.
Qed.

(** The rows with a code among distinct codes number the sum of the
    counts of these codes. *)
Lemma count_of_codes_filter (ks codes : list string) :
  NoDup ks →
  count_of_codes (tally codes) ks = Z.of_nat (length (filter (λ c, c ∈ ks) codes)).
Proof.
  induction 1 as [|k ks Hk _ IH]; simpl.
  - rewrite (filter_none _ codes); [done|].
    apply Forall_forall. by intros c _ ?%elem_of_nil.
  - rewrite IH, tally_get, occurrences_filter_cons by done. lia.
Qed.

Lemma rows_for_flag geo w items :
  Forall (λ r, is_ofac_sanctioned r = bool_decide (country_code r ∈ OFAC_COUNTRIES))
         (rows_for geo w items).
Proof.
  apply Forall_lookup. intros i r Hi.
  by apply rows_for_lookup in Hi as (ip & nd & ts & _ & ->).
Qed.

Lemma count_sanctioned_codes (rows : list scan_row) :
  Forall (λ r, is_ofac_sanctioned r = bool_decide (country_code r ∈ OFAC_COUNTRIES))
         rows →
  count_sanctioned rows
    = Z.of_nat (length (filter (λ c, c ∈ ["IR"; "KP"; "CU"; "SY"; "RU"; "BY"; "VE"; "MM"])
                               (country_code <$> rows))).
Proof.
  unfold count_sanctioned. induction 1 as [|r rows Hr _ IH]; [done|].
  rewrite fmap_cons, !filter_cons, Hr.
  destruct (decide (country_code r ∈ OFAC_COUNTRIES)) as [Hin|Hnin].
  - rewrite bool_decide_true, decide_True by done.
    rewrite decide_True by (by apply ofac_member). simpl. lia.
  - rewrite bool_decide_false, decide_False by done.
    rewrite decide_False by (by rewrite <- ofac_member). done.
Qed.

(** X8. The number of sanctioned peers of a run is the sum of the
    tally's counts for the eight sanctioned codes: the running counter
    and the per-country tally never disagree. *)
Theorem sanctioned_count_is_tally_of_ofac (w : world) :
  ∃ l w',
    main w = (Ok l, w')
    ∧ sanctioned_count l
        = count_of_codes (country_counter l)
            ["IR"; "KP"; "CU"; "SY"; "RU"; "BY"; "VE"; "MM"]
    ∧ sanctioned_count l
        = (counter_get (country_counter l) "IR" + counter_get (country_counter l) "KP"
           + counter_get (country_counter l) "CU" + counter_get (country_counter l) "SY"
           + counter_get (country_counter l) "RU" + counter_get (country_counter l) "BY"
           + counter_get (country_counter l) "VE" + counter_get (country_counter l) "MM")%Z.
Proof.
  destruct (main_run w) as (l & w' & Hmain & Hfacts).
  assert (sanctioned_count l
          = count_of_codes (country_counter l)
              ["IR"; "KP"; "CU"; "SY"; "RU"; "BY"; "VE"; "MM"]) as Hsum.
  { assert (NoDup ["IR"; "KP"; "CU"; "SY"; "RU"; "BY"; "VE"; "MM"]) as Hnd.
    { apply (bool_decide_unpack _). by vm_compute. }
    rewrite (run_sanctioned_count _ _ _ Hfacts), (run_country_counter _ _ _ Hfacts).
    rewrite count_of_codes_filter by done.
    apply count_sanctioned_codes.
    rewrite (run_processed_data _ _ _ Hfacts). apply rows_for_flag. }
  exists l, w'. split; [done|]. split; [done|].
  rewrite Hsum. unfold count_of_codes. simpl. lia.
Qed.

(** X9. The summary file holds the summary of the run, whatever it
    held before.  The summary has sixteen fixed lines and one line per
    country code of the rows.  Its third and fifth lines show the
    number of rows and the number of sanctioned peers, and the five
    highlighted lines show the number of rows with the code US, DE, RU,
    IR and KP, which is 0 for a code that no row has. *)
Theorem summary_layout (w : world) :
  ∃ l w',
    main w = (Ok l, w')
    ∧ let codes := country_code <$> processed_data l in
      let shown (k : string) := pretty (Z.of_nat (occurrences k codes)) in
      summary_file w' = Some (join_lines (summary_lines l))
      ∧ length (summary_lines l) = 16 + length (country_counter l)
      ∧ summary_lines l !! 2
          = Some ("Total Nodes Sampled: " +:+ pretty (Z.of_nat (length (processed_data l))))
      ∧ summary_lines l !! 4
          = Some ("Sanctioned Nodes (OFAC): "
                    +:+ pretty (count_sanctioned (processed_data l)))
      ∧ summary_lines l !! 8 = Some ("  🇺🇸 US (USA): " +:+ shown "US")
      ∧ summary_lines l !! 9 = Some ("  🇩🇪 DE (Germany): " +:+ shown "DE")
      ∧ summary_lines l !! 10 = Some ("  🇷🇺 RU (Russia): " +:+ shown "RU")
      ∧ summary_lines l !! 11 = Some ("  🇮🇷 IR (Iran): " +:+ shown "IR")
      ∧ summary_lines l !! 12 = Some ("  🇰🇵 KP (North Korea): " +:+ shown "KP")
      ∧ (∀ k, k ∉ codes → shown k = "0").
Proof.
  destruct (main_run w) as (l & w' & Hmain & Hfacts).
  exists l, w'. split; [done|]. cbv zeta.
  split; [apply (run_summary_file _ _ _ Hfacts)|].
  rewrite (run_summary_lines _ _ _ Hfacts). unfold build_summary_lines.
  rewrite (run_total_fetched _ _ _ Hfacts), (run_sanctioned_count _ _ _ Hfacts).
  assert (∀ k, counter_get (country_counter l) k
               = Z.of_nat (occurrences k (country_code <$> processed_data l))) as Hget.
  { intros k. rewrite (run_country_counter _ _ _ Hfacts). apply tally_get. }
  rewrite !Hget.
  split.
  { rewrite length_app, length_fmap. unfold most_common.
    by rewrite sorted_by_count_desc_perm. }
  repeat (split; [done|]).
  intros k Hk. unfold occurrences. rewrite filter_none; [done|].
  apply Forall_forall. intros c Hc ->. done.
Qed.

(** X10. Each row carries its own reading of the clock: the rows show,
    in order, the consecutive readings that start where the run finds
    the clock, and the date of the summary is the reading after that of
    the last row. *)
Theorem row_timestamps (w : world) :
  ∃ l w',
    main w = (Ok l, w')
    ∧ timestamp <$> processed_data l
        = (λ n, isoformat (wall_clock w (clock_reads w + n)))
            <$> seq 0 (length (processed_data l))
    ∧ summary_lines l !! 1
        = Some ("Date: "
                  +:+ strftime_ymd_hms
                        (wall_clock w (clock_reads w + length (processed_data l)))).
Proof.
  destruct (main_run w) as (l & w' & Hmain & Hfacts).
  exists l, w'. split; [done|].
  rewrite (run_summary_lines _ _ _ Hfacts).
  rewrite (run_processed_data _ _ _ Hfacts), length_rows_for.
  split; [apply rows_for_timestamp|done].
Qed.

(** X11. When the directory yields no peer with a gossip address
    (the request failed, the cluster is empty, or no peer has an
    address), the run still completes: it sends no geolocation request,
    has no row, leaves an existing log as it is or creates it with the
    header alone, and writes a summary of zeros with no breakdown. *)
Theorem no_valid_peers_empty_report (w : world) (l : main_locals) (w' : world) :
  main w = (Ok l, w') →
  filter (λ n, truthy (gossip n))
         (rpc_reply_nodes (rpc_endpoint w (length (http_log w)))) = [] →
  processed_data l = []
  ∧ http_log w' = http_log w ++ [RpcRequest]
  ∧ csv_file w' = Some (log_before (csv_file w))
  ∧ country_counter l = []
  ∧ sanctioned_count l = 0%Z
  ∧ summary_lines l !! 2 = Some "Total Nodes Sampled: 0"
  ∧ summary_lines l !! 4 = Some "Sanctioned Nodes (OFAC): 0"
  ∧ summary_lines l !! 5 = Some "Non-Compliance Percentage: 0.00%"
  ∧ length (summary_lines l) = 16.
Proof.
  intros Hmain Hnone. pose proof (main_inv _ _ _ Hmain) as Hfacts.
  assert (valid_nodes l = []) as Hvalid.
  { by rewrite (run_valid_nodes _ _ _ Hfacts), (run_nodes _ _ _ Hfacts). }
  assert (sampled_nodes l = []) as Hsampled.
  { pose proof (run_sampled_nodes _ _ _ Hfacts) as Hs. by rewrite Hvalid in Hs. }
  pose proof (run_extract _ _ _ Hfacts) as Hex.
  rewrite Hsampled in Hex. injection Hex as Hips Hmap.
  assert (processed_data l = []) as Hrows.
  { by rewrite (run_processed_data _ _ _ Hfacts), Hmap. }
  assert (country_counter l = []) as Hcounter.
  { by rewrite (run_country_counter _ _ _ Hfacts), Hrows. }
  assert (sanctioned_count l = 0%Z) as Hcount.
  { by rewrite (run_sanctioned_count _ _ _ Hfacts), Hrows. }
  assert (total_fetched l = 0%Z) as Htotal.
  { by rewrite (run_total_fetched _ _ _ Hfacts), Hrows. }
  pose proof (run_non_compliance_pct _ _ _ Hfacts) as Hpct.
  rewrite Hcount, Htotal in Hpct. injection Hpct as Hpct.
  split; [done|]. split; [by rewrite (run_http_log _ _ _ Hfacts), Hips|].
  split; [by rewrite (run_csv_file _ _ _ Hfacts), Hrows, app_nil_r|].
  split; [done|]. split; [done|].
  rewrite (run_summary_lines _ _ _ Hfacts), Hcount, Htotal, Hcounter, <- Hpct.
  done.
Qed.

Lemma no_valid_peers_empty_report_witness :
  ∃ l w',
    main world_down = (Ok l, w')
    ∧ processed_data l = []
    ∧ csv_file w' = Some [fieldnames]
    ∧ length (summary_lines l) = 16.
Proof.
  destruct (main_run world_down) as (l & w' & Hmain & _).
  destruct (no_valid_peers_empty_report world_down l w' Hmain eq_refl)
    as (Hrows & _ & Hcsv & _ & _ & _ & _ & _ & Hlen).
  by exists l, w'.
Defined.

Lemma tally_all_same (k : string) (codes : list string) :
  Forall (λ c, c = k) codes →
  tally codes
    = if decide (codes = []) then [] else [(k, Z.of_nat (length codes))].
Proof.
  induction codes as [|c codes IH] using rev_ind; intros Hall; [done|].
  apply Forall_app in Hall as [Hall Hc].
  apply Forall_cons in Hc as [Hc _]. simpl in Hc. subst c.
  rewrite tally_snoc, (IH Hall), length_app.
  rewrite (decide_False (P := codes ++ [k] = [])) by (by intros [_ ?]%app_eq_nil).
  destruct (decide (codes = [])) as [->|Hne]; [done|].
  unfold counter_incr, counter_get. cbn [od_get od_set].
  rewrite !decide_True by done. simpl. do 3 f_equal. lia.
Qed.

(** X12. When no reply of the geolocation service stores an entry
    (every request fails, say), the run still completes: every row has
    the sentinel code XX and name Unknown and is not flagged, no peer
    counts as sanctioned, and the tally has the one code XX with the
    number of rows. *)
Theorem geolocation_down_all_sentinel (w : world) (l : main_locals) (w' : world) :
  main w = (Ok l, w') →
  (∀ n hosts, reply_entries (geo_endpoint w n hosts) = []) →
  geo_data l = ∅
  ∧ Forall (λ r, country_code r = "XX" ∧ country_name r = "Unknown"
                 ∧ is_ofac_sanctioned r = false) (processed_data l)
  ∧ sanctioned_count l = 0%Z
  ∧ country_counter l
      = if decide (processed_data l = []) then []
        else [("XX", Z.of_nat (length (processed_data l)))].
Proof.
  intros Hmain Hdown. pose proof (main_inv _ _ _ Hmain) as Hfacts.
  assert (geo_data l = ∅) as Hgeo.
  { rewrite (run_geo_data _ _ _ Hfacts).
    replace (concat _) with (@nil (string * location)); [done|].
    symmetry. apply elem_of_nil_inv. intros e (es & He & Hes)%elem_of_concat.
    apply list_elem_of_fmap in Hes as (reply & -> & Hreply).
    unfold geo_replies in Hreply.
    apply list_elem_of_lookup in Hreply as [k Hk].
    rewrite list_lookup_imap in Hk.
    destruct (chunks_of (ip_list l) !! k) as [chunk|]; simplify_eq/=.
    rewrite Hdown in He. by apply elem_of_nil in He. }
  assert (Forall (λ r, country_code r = "XX" ∧ country_name r = "Unknown"
                       ∧ is_ofac_sanctioned r = false) (processed_data l)) as Hrows.
  { rewrite (run_processed_data _ _ _ Hfacts), Hgeo. apply Forall_lookup.
    intros i r Hi. by apply rows_for_lookup in Hi as (ip & nd & ts & _ & ->). }
  split; [done|]. split; [done|]. split.
  - rewrite (run_sanctioned_count _ _ _ Hfacts). unfold count_sanctioned.
    rewrite filter_none; [done|].
    eapply Forall_impl; [exact Hrows|]. intros r (_ & _ & ->). done.
  - rewrite (run_country_counter _ _ _ Hfacts), (tally_all_same "XX").
    + rewrite length_fmap.
      destruct (processed_data l) as [|r rows]; [done|].
      by rewrite decide_False.
    + apply Forall_fmap. eapply Forall_impl; [exact Hrows|]. by intros r (? & _).
Qed.

Lemma geolocation_down_all_sentinel_witness :
  ∃ l w',
    main geolocation_down_world = (Ok l, w')
    ∧ country_counter l = [("XX", 3%Z)]
    ∧ sanctioned_count l = 0%Z.
Proof.
  destruct (main_run geolocation_down_world) as (l & w' & Hmain & Hfacts).
  destruct (geolocation_down_all_sentinel geolocation_down_world l w' Hmain)
    as (_ & _ & Hcount & Hcounter); [done|].
  assert (length (processed_data l) = 3) as Hlen.
  { assert (sampled_nodes l
            = example_nodes (Some "pk1") None (Some "pk2") None (Some "pk3") None) as Hs.
    { pose proof (run_sampled_nodes _ _ _ Hfacts) as Hs.
      rewrite (run_valid_nodes _ _ _ Hfacts), (run_nodes _ _ _ Hfacts) in Hs.
      exact Hs. }
    pose proof (run_extract _ _ _ Hfacts) as Hex.
    rewrite Hs in Hex. injection Hex as _ Hmap.
    by rewrite (run_processed_data _ _ _ Hfacts), length_rows_for, Hmap. }
  exists l, w'. split; [done|]. split; [|done].
  rewrite Hcounter, Hlen. destruct (processed_data l); [done|].
  by rewrite decide_False.
Defined.

Lemma no_colon_split_colon_0 (s : string) : no_colon (split_colon_0 s).
Proof. exact (proj2 (split_colon_0_spec s)). Qed.

(** X14. Cutting an address at its first colon gives back the host:
    for a host without a colon, the host of [host:port] is the host,
    whatever the port, and an address that is the bare host is its own
    host. *)
Theorem split_colon_0_host_port (h p : string) :
  no_colon h →
  split_colon_0 (h +:+ String ":" p) = h ∧ split_colon_0 h = h.
Proof.
  induction h as [|c h IH]; intros Hh; simpl.
  - done.
  - assert (c ≠ ":"%char) as Hc.
    { intros ->. by apply (Hh "" h). }
    assert (no_colon h) as Hh'.
    { intros pre post ->. by apply (Hh (String c pre) post). }
    rewrite !decide_False by done. destruct (IH Hh') as [-> ->]. done.
Qed.

Lemma split_colon_0_host_port_witness :
  split_colon_0 ("1.1.1.1" +:+ String ":" "8001") = "1.1.1.1"
  ∧ split_colon_0 "1.1.1.1" = "1.1.1.1".
Proof.
  apply (split_colon_0_host_port "1.1.1.1" "8001").
  apply (no_colon_split_colon_0 "1.1.1.1:8001").
Defined.

Lemma write_csv_stdout (pd : list scan_row) (w : world) :
  stdout (write_csv pd w).2 = stdout w ++ ["Results appended to daily_node_scan.csv"].
Proof.
  unfold write_csv, os_path_isfile_csv, open_append_csv, csv_write, print.
  rewrite !run_bind. simpl. by destruct (csv_file w).
Qed.

(** X13. What a run prints, in order: the opening line; the error line
    of the directory client if its call failed; the number of peers
    with a gossip address and the number of sampled peers; one error
    line per failed chunk of the resolver; and the two closing lines.
    Nothing is printed for a peer that lost its host to a later one. *)
Theorem main_prints (w : world) :
  ∃ l w',
    main w = (Ok l, w')
    ∧ stdout w'
        = stdout w
          ++ ["Fetching nodes from Solana Gossip Network..."]
          ++ rpc_error_line (rpc_endpoint w (length (http_log w)))
          ++ ["Total active nodes found: " +:+ pretty (length (valid_nodes l));
              "Sampling " +:+ pretty (length (sampled_nodes l)) +:+ " nodes..."]
          ++ chunk_error_lines (range3 0 (length (ip_list l)) 100)
               (geo_replies w (S (length (http_log w))) (chunks_of (ip_list l)))
          ++ ["Results appended to daily_node_scan.csv";
              "Summary generated in daily_summary.txt"].
Proof.
  unfold main. rewrite run_bind, run_print. cbv beta iota.
  set (w0 := with_stdout w _).
  rewrite run_bind.
  pose proof (get_gossip_nodes_world w0) as Hw1.
  destruct (get_gossip_nodes_run w0) as (w1 & Hrun1 & _).
  rewrite Hrun1 in Hw1 |- *. cbn [snd] in Hw1. cbv beta iota zeta.
  set (nodes0 := rpc_reply_nodes _).
  set (valid := filter _ nodes0).
  rewrite run_bind, run_print. cbv beta iota.
  set (w2 := with_stdout w1 _).
  rewrite run_bind. fold (sampling valid).
  pose proof (λ X (f : world → X) Hr, preserves_sampling f valid Hr w2) as P3.
  destruct (sampling_run valid w2) as (sampled & w3 & Hrun3 & _).
  rewrite Hrun3 in P3 |- *. cbn [snd] in P3. cbv beta iota.
  rewrite run_bind, run_print. cbv beta iota.
  set (w4 := with_stdout w3 _).
  destruct (extract_ips sampled [] []) as [ips nmap] eqn:Hextract.
  rewrite run_bind.
  pose proof (for_chunks_world ips (range3 0 (length ips) 100) ∅ w4) as Hw5.
  destruct (get_ip_country_batch_run ips w4) as (w5 & Hrun5 & _).
  unfold get_ip_country_batch in Hrun5 |- *.
  rewrite Hrun5 in Hw5 |- *. cbn [snd] in Hw5. cbv zeta in Hw5. cbv beta iota.
  rewrite run_bind, process_items_run. cbv beta iota.
  set (w6 := with_clock_reads w5 _).
  rewrite run_bind.
  match goal with
  | |- context [write_csv ?pd w6] =>
      pose proof (write_csv_stdout pd w6) as Hw7;
      destruct (write_csv_run pd w6) as (w7 & Hrun7 & _)
  end.
  rewrite Hrun7 in Hw7 |- *. cbn [snd] in Hw7. cbv beta iota.
  rewrite run_bind. unfold lift_result at 1.
  match goal with
  | |- context [compute_non_compliance_pct ?sc ?total] =>
      destruct (compute_non_compliance_pct_ok sc total) as (pct & Hpct & _);
      rewrite Hpct
  end.
  cbv beta iota.
  rewrite run_bind. unfold datetime_now at 1. cbv beta iota.
  rewrite run_bind. unfold write_summary_file at 1. cbv beta iota.
  rewrite run_bind, run_print. cbv beta iota. rewrite run_ret.
  eexists _, _. split; [reflexivity|].
  cbn [valid_nodes sampled_nodes ip_list stdout with_stdout with_summary_file
       with_clock_reads].
  rewrite Hw7. subst w6. cbn [stdout with_clock_reads].
  rewrite Hw5. cbn [stdout with_stdout with_http_log].
  assert (geo_endpoint w4 = geo_endpoint w
          ∧ length (http_log w4) = S (length (http_log w))) as [Hgeo Hlen].
  { subst w4. cbn [geo_endpoint http_log with_stdout].
    rewrite (P3 _ geo_endpoint), (P3 _ http_log) by (by intros ? ?).
    subst w2. cbn [geo_endpoint http_log with_stdout]. rewrite Hw1.
    cbn [geo_endpoint http_log with_stdout with_http_log].
    rewrite length_app. simpl. split; [done|lia]. }
  assert (geo_replies w4 (length (http_log w4))
            ((λ i, slice ips i (i + 100)) <$> range3 0 (length ips) 100)
          = geo_replies w (S (length (http_log w))) (chunks_of ips)) as ->.
  { unfold geo_replies, chunks_of. by rewrite Hgeo, Hlen. }
  subst w4. cbn [stdout with_stdout].
  rewrite (P3 _ stdout) by (by intros ? ?). subst w2. cbn [stdout with_stdout].
  rewrite Hw1. cbn [stdout with_stdout with_http_log]. subst w0.
  cbn [stdout with_stdout rpc_endpoint http_log].
  by rewrite <- !app_assoc.
Qed.
